(** * scripts/agent_select.py: extraction of stock codes from an agent report

    A shallow embedding of [_extract_stock_codes] and [main].  A Python [str]
    is a list of Unicode code points; the three compiled patterns are terms of
    a small regular-expression syntax, executed by a backtracking matcher that
    follows the priorities of Python's [re] (leftmost start, left alternative
    first, greedy repetition). *)

From Stdlib Require Import List Bool Arith NArith ZArith Lia String Ascii Sorted.
From Stdlib Require Import DecimalString.
Import ListNotations.

Set Implicit Arguments.

(** ** Text *)

(** A character is a Unicode code point, a [str] a list of them. *)
Definition char := N.
Definition text := list char.

(** A [str] literal made of ASCII characters. *)
Definition py (s : string) : text := map N_of_ascii (list_ascii_of_string s).

(** [s[a:b]] for [0 <= a] and [0 <= b]. *)
Definition slice (s : text) (a b : nat) : text := firstn (b - a) (skipn a s).

(** ** The Unicode character database

    [\d] is [Py_UNICODE_ISDECIMAL] and [\w] is [Py_UNICODE_ISALNUM] or an
    underscore.  Both tables belong to the interpreter, not to the script, so
    the development is parametric in them. *)
Record ucd : Type := {
  isdecimal : char -> bool;
  isalnum : char -> bool
}.

Definition ascii_digit (c : char) : bool := ((48 <=? c) && (c <=? 57))%N.
Definition ascii_upper (c : char) : bool := ((65 <=? c) && (c <=? 90))%N.
Definition ascii_lower (c : char) : bool := ((97 <=? c) && (c <=? 122))%N.

(** The tables restricted to ASCII: nothing above U+007F is classified. *)
Definition ascii_ucd : ucd := {|
  isdecimal := ascii_digit;
  isalnum := fun c => ascii_digit c || ascii_upper c || ascii_lower c
|}.

(** A database is faithful on ASCII when it classifies the code points below
    128 as [ascii_ucd] does. *)
Definition ascii_faithful (U : ucd) : Prop :=
  forall c : char, (c < 128)%N ->
    isdecimal U c = isdecimal ascii_ucd c /\ isalnum U c = isalnum ascii_ucd c.

Definition is_ascii (s : text) : Prop := Forall (fun c : char => (c < 128)%N) s.

(** Two databases agree on a text when they classify its characters alike. *)
Definition agree_on (U V : ucd) (s : text) : Prop :=
  Forall (fun c => isdecimal U c = isdecimal V c /\ isalnum U c = isalnum V c) s.

(** [str.upper] on the characters a match of [_HKSTOCK_FULL] is made of:
    ASCII letters are folded; KELVIN SIGN (U+212A) is its own uppercase and
    decimal digits are uncased. *)
Definition upper_char (c : char) : char := if ascii_lower c then (c - 32)%N else c.
Definition lower_char (c : char) : char := if ascii_upper c then (c + 32)%N else c.
Definition upper (s : text) : text := map upper_char s.

(** ** Patterns *)

(** The other characters an ASCII letter matches under [re.IGNORECASE]
    ([_equivalences] of the [re] compiler): k and KELVIN SIGN, s and LATIN
    SMALL LETTER LONG S. *)
Definition ignorecase_fixes (lo : char) : list char :=
  if (lo =? 107)%N then [8490%N]
  else if (lo =? 115)%N then [383%N]
  else [].

Inductive cclass : Type :=
| Lit (c : char)              (* a literal character *)
| LitI (c : char)             (* an ASCII letter under IGNORECASE *)
| Range (lo hi : char)        (* [lo-hi] *)
| Digit                       (* \d *)
| Union (a b : cclass).       (* the items of a [...] set *)

Inductive regex : Type :=
| Cls (cl : cclass)           (* one character of a class *)
| WordB                       (* \b *)
| Seq (r s : regex)           (* r s *)
| Alt (r s : regex)           (* r|s *)
| Opt (r : regex)             (* (?:r)? *)
| Rep (lo hi : nat) (r : regex) (* r{lo,hi} *)
| Grp (r : regex).            (* (?P<code>r) *)

Declare Scope regex_scope.
Delimit Scope regex_scope with re.
Notation "r ;; s" := (Seq r s) (at level 61, right associativity) : regex_scope.

Definition ch (a : ascii) : char := N_of_ascii a.
Arguments ch a%_char.

Definition N_eqb_in (c : char) (l : list char) : bool := existsb (N.eqb c) l.

Fixpoint in_class (U : ucd) (cl : cclass) (c : char) : bool :=
  match cl with
  | Lit a => (c =? a)%N
  | LitI a => N_eqb_in c (upper_char a :: lower_char a :: ignorecase_fixes (lower_char a))
  | Range lo hi => ((lo <=? c) && (c <=? hi))%N
  | Digit => isdecimal U c
  | Union a b => in_class U a c || in_class U b c
  end.

Definition is_word (U : ucd) (c : char) : bool := isalnum U c || (c =? 95)%N.

(** A match object: its span and the span of the group [code]. *)
Record rmatch : Type := {
  m_start : nat;
  m_end : nat;
  m_code : option (nat * nat)
}.

Section Matcher.

Variable U : ucd.
Variable s : text.

Definition word_at (i : nat) : bool :=
  match nth_error s i with
  | Some c => is_word U c
  | None => false
  end.

(** [\b] holds at [i] when exactly one of [s[i-1]] and [s[i]] is a word
    character; outside the string there is none. *)
Definition boundary (i : nat) : bool :=
  xorb (match i with O => false | S j => word_at j end) (word_at i).

Definition grp : Type := option (nat * nat).
Definition cont : Type := nat -> grp -> option rmatch.

(** Greedy [{lo,hi}]: one more iteration is tried first; when none leads to a
    match the loop is left, provided [lo] iterations were made. *)
Fixpoint rep_loop (body : nat -> grp -> cont -> option rmatch) (k : cont)
    (lo hi i : nat) (g : grp) {struct hi} : option rmatch :=
  let leave := match lo with O => k i g | S _ => None end in
  match hi with
  | O => leave
  | S hi' =>
      match body i g (fun j g' => rep_loop body k (pred lo) hi' j g') with
      | Some m => Some m
      | None => leave
      end
  end.

(** The backtracking matcher in continuation-passing style: [try_match r i g k]
    tries the ways [r] matches at [i] in priority order, and answers with the
    first one that [k] accepts. *)
Fixpoint try_match (r : regex) (i : nat) (g : grp) (k : cont) : option rmatch :=
  match r with
  | Cls cl =>
      match nth_error s i with
      | Some c => if in_class U cl c then k (S i) g else None
      | None => None
      end
  | WordB => if boundary i then k i g else None
  | Seq r1 r2 => try_match r1 i g (fun j g' => try_match r2 j g' k)
  | Alt r1 r2 =>
      match try_match r1 i g k with
      | Some m => Some m
      | None => try_match r2 i g k
      end
  | Opt r1 =>
      match try_match r1 i g k with
      | Some m => Some m
      | None => k i g
      end
  | Rep lo hi r1 => rep_loop (try_match r1) k lo hi i g
  | Grp r1 => try_match r1 i g (fun j _ => k j (Some (i, j)))
  end.

(** [pattern.match(s, i)]. *)
Definition match_at (r : regex) (i : nat) : option rmatch :=
  try_match r i None (fun j g => Some {| m_start := i; m_end := j; m_code := g |}).

(** The scanner of [finditer]: start positions are tried from left to right,
    and after a match the scan resumes where the match ended. *)
Fixpoint scan (r : regex) (starts : list nat) (resume : nat) : list rmatch :=
  match starts with
  | [] => []
  | i :: rest =>
      if i <? resume then scan r rest resume
      else match match_at r i with
           | Some m => m :: scan r rest (m_end m)
           | None => scan r rest resume
           end
  end.

Definition finditer (r : regex) : list rmatch :=
  scan r (seq 0 (S (List.length s))) 0.

(** [pattern.search(s)] as a truth value. *)
Definition search (r : regex) : bool :=
  match finditer r with
  | [] => false
  | _ :: _ => true
  end.

(** [m.group(0)] and [m.group("code")].  The group takes part in every
    match of [_ASTOCK_FULL] ([astock_code_shape] below), so the case where it
    is unset, in which Python answers [None], does not arise. *)
Definition group0 (m : rmatch) : text := slice s (m_start m) (m_end m).
Definition group_code (m : rmatch) : text :=
  match m_code m with
  | Some (a, b) => slice s a b
  | None => []
  end.

(** *** What a pattern matches

    [matches r i g j g']: [r] matches [s[i:j]], taking the group from [g] to
    [g'].  This is the specification the backtracking matcher is sound and
    complete for. *)
Fixpoint rep_matches (body : nat -> grp -> nat -> grp -> Prop)
    (n i : nat) (g : grp) (j : nat) (g' : grp) : Prop :=
  match n with
  | O => j = i /\ g' = g
  | S n' => exists m gm, body i g m gm /\ rep_matches body n' m gm j g'
  end.

Fixpoint matches (r : regex) (i : nat) (g : grp) (j : nat) (g' : grp) : Prop :=
  match r with
  | Cls cl => exists c, nth_error s i = Some c /\ in_class U cl c = true /\ j = S i /\ g' = g
  | WordB => boundary i = true /\ j = i /\ g' = g
  | Seq r1 r2 => exists m gm, matches r1 i g m gm /\ matches r2 m gm j g'
  | Alt r1 r2 => matches r1 i g j g' \/ matches r2 i g j g'
  | Opt r1 => matches r1 i g j g' \/ (j = i /\ g' = g)
  | Rep lo hi r1 => exists n, lo <= n <= hi /\ rep_matches (matches r1) n i g j g'
  | Grp r1 => exists g0, matches r1 i g j g0 /\ g' = Some (i, j)
  end.

End Matcher.

(** ** The three compiled patterns *)

Local Open Scope regex_scope.

(** [(?:SH|SZ)] under IGNORECASE. *)
Definition SH_or_SZ : regex :=
  Alt (Cls (LitI (ch "S")) ;; Cls (LitI (ch "H")))
      (Cls (LitI (ch "S")) ;; Cls (LitI (ch "Z"))).

(** [\b(?:SH|SZ)?(?P<code>[036]\d{5}|[12]\d{5})(?:\.(?:SH|SZ))?\b], IGNORECASE. *)
Definition _ASTOCK_FULL : regex :=
  WordB ;;
  Opt SH_or_SZ ;;
  Grp (Alt (Cls (Union (Lit (ch "0")) (Union (Lit (ch "3")) (Lit (ch "6")))) ;; Rep 5 5 (Cls Digit))
           (Cls (Union (Lit (ch "1")) (Lit (ch "2"))) ;; Rep 5 5 (Cls Digit))) ;;
  Opt (Cls (Lit (ch ".")) ;; SH_or_SZ) ;;
  WordB.

(** [\bHK\d{5}\b], IGNORECASE. *)
Definition _HKSTOCK_FULL : regex :=
  WordB ;; Cls (LitI (ch "H")) ;; Cls (LitI (ch "K")) ;; Rep 5 5 (Cls Digit) ;; WordB.

(** [\b[A-Z]{1,5}\b]. *)
Definition _USSTOCK_FULL : regex :=
  WordB ;; Rep 1 5 (Cls (Range (ch "A") (ch "Z"))) ;; WordB.

(** The set of line 83: dollar, percent, FULLWIDTH YEN SIGN (U+FFE5), YEN SIGN
    (U+00A5), or [\d]. *)
Definition price_or_pct : regex :=
  Cls (Union (Lit (ch "$")) (Union (Lit (ch "%")) (Union (Lit 65509%N) (Union (Lit 165%N) Digit)))).

Local Close Scope regex_scope.

(** [_VALID_FIRST = set("036")]. *)
Definition _VALID_FIRST : list char := py "036".

(** ** The extractor *)

(** The choices of [--market]. *)
Inductive market : Type := cn | hk | us | mixed.

Definition text_eqb (a b : text) : bool :=
  if list_eq_dec N.eq_dec a b then true else false.

(** The dict [seen] holds only [None] values: it is the list of its keys in
    insertion order. *)
Definition dict : Type := list text.

Definition contains (seen : dict) (k : text) : bool := existsb (text_eqb k) seen.

(** [seen.setdefault(k)]: a key already present is left where it is. *)
Definition setdefault (seen : dict) (k : text) : dict :=
  if contains seen k then seen else seen ++ [k].

(** [code[0] in _VALID_FIRST or code[0] in "12"].  The group is never empty
    ([astock_code_shape] below), so [code[0]] does not raise. *)
Definition first_ok (code : text) : bool :=
  match code with
  | c :: _ => N_eqb_in c _VALID_FIRST || N_eqb_in c (py "12")
  | [] => false
  end.

Section Extractor.

Variable U : ucd.
Variable s : text.

(** Body of the loop over [_ASTOCK_FULL.finditer(text)]. *)
Definition astock_step (seen : dict) (m : rmatch) : dict :=
  let code := group_code s m in
  if first_ok code then setdefault seen code else seen.

(** Body of the loop over [_HKSTOCK_FULL.finditer(text)]. *)
Definition hkstock_step (seen : dict) (m : rmatch) : dict :=
  setdefault seen (upper (group0 s m)).

(** [text[max(0, m.start() - 20) : min(len(text), m.end() + 20)]]. *)
Definition context_of (m : rmatch) : text :=
  let span_start := m_start m - 20 in
  let span_end := Nat.min (List.length s) (m_end m + 20) in
  slice s span_start span_end.

(** Body of the loop over [_USSTOCK_FULL.finditer(text)]. *)
Definition usstock_step (seen : dict) (m : rmatch) : dict :=
  let ticker := group0 s m in
  if search U (context_of m) price_or_pct then setdefault seen ticker else seen.

Definition in_hk_scope (mk : market) : bool :=
  match mk with hk | mixed => true | _ => false end.

Definition in_us_scope (mk : market) : bool :=
  match mk with us | mixed => true | _ => false end.

Definition _extract_stock_codes (mk : market) : list text :=
  let seen : dict := [] in
  let seen := fold_left astock_step (finditer U s _ASTOCK_FULL) seen in
  let seen :=
    if in_hk_scope mk then fold_left hkstock_step (finditer U s _HKSTOCK_FULL) seen
    else seen in
  let seen :=
    if in_us_scope mk then fold_left usstock_step (finditer U s _USSTOCK_FULL) seen
    else seen in
  seen.

End Extractor.

(** ** The program *)

(** [codes[:n]]: a negative [n] counts from the end of the list. *)
Definition slice_to (A : Type) (l : list A) (n : Z) : list A :=
  if (n <? 0)%Z then firstn (Z.to_nat (Z.max 0 (Z.of_nat (List.length l) + n))) l
  else firstn (Z.to_nat n) l.

(** [sep.join(l)]. *)
Fixpoint join (sep : text) (l : list text) : text :=
  match l with
  | [] => []
  | [x] => x
  | x :: rest => x ++ sep ++ join sep rest
  end.

(** The namespace of [parse_args]. *)
Record args : Type := {
  args_strategy : text;
  args_max_stocks : Z;
  args_output : option text;
  args_report : option text;
  args_market : market;
  args_debug : bool
}.

(** [f"{max_stocks}"]. *)
Definition str_of_int (z : Z) : string := NilEmpty.string_of_int (Z.to_int z).

(** The instruction text of [_build_selection_prompt], as UTF-8, before and
    after the count. *)
Definition prompt_head : string :=
  "请立即执行【A股短线选股策略】，完成三步选股流程：
1. 先用 get_market_indices 判断当前大盘环境；
2. 再用 get_sector_rankings 定位今日最强主线板块；
3. 最后在主线板块中，结合技术面和资金面，精选不超过 ".

Definition prompt_tail : string :=
  " 只短线个股。

输出格式要求：
- 首先给出市场状态判断（好行情 / 轮动市 / 冰点期）；
- 冰点期则直接输出「市场风险提示」，不输出选股结果；
- 其他状态：对每只入选股票输出：股票代码（6位）、股票名称、所属主线板块、核心入选理由（一句话）、建议入场区间和止损位。
- 最后单独一行输出：「入选代码：XXXXXX,YYYYYY,...」".

Definition _build_selection_prompt (max_stocks : Z) : string :=
  (prompt_head ++ str_of_int max_stocks ++ prompt_tail)%string.

(** The collaborators: the result object, the executor, and the factory,
    which either raises or returns an executor. *)
Record agent_result : Type := {
  success : bool;
  error : text;
  content : text
}.

Record executor : Type := { executor_run : string -> agent_result }.

Inductive build_outcome : Type :=
| Raises (exc : text)
| Returns (ex : executor).

Inductive level : Type := INFO | WARNING | ERROR.

Inductive call : Type :=
| CallBuild (skills : list text)
| CallRun (task : string).

(** What a run of the program leaves behind: the characters written to
    stdout, the files written, the log records and the calls made to the
    agent framework, each in order. *)
Record world : Type := {
  stdout : text;
  files : list (text * text);
  logged : list (level * string);
  calls : list call
}.

Definition world0 : world := {| stdout := []; files := []; logged := []; calls := [] |}.

(** A computation on the world. *)
Definition io (A : Type) : Type := world -> A * world.

Definition ret (A : Type) (a : A) : io A := fun w => (a, w).
Definition bind (A B : Type) (c : io A) (k : A -> io B) : io B :=
  fun w => let (a, w') := c w in k a w'.

Declare Scope io_scope.
Delimit Scope io_scope with io.
Notation "x <- c ;; k" := (bind c (fun x => k))
  (at level 61, c at next level, right associativity) : io_scope.
Notation "c ;; k" := (bind c (fun _ => k))
  (at level 61, right associativity) : io_scope.

Definition newline : char := 10%N.

(** [print(line)]. *)
Definition print (line : text) : io unit :=
  fun w => (tt, {| stdout := stdout w ++ line ++ [newline]; files := files w;
                   logged := logged w; calls := calls w |}).

(** [Path(p).parent.mkdir(parents=True, exist_ok=True)] and
    [Path(p).write_text(data, encoding="utf-8")]. *)
Definition write_text (p data : text) : io unit :=
  fun w => (tt, {| stdout := stdout w; files := files w ++ [(p, data)];
                   logged := logged w; calls := calls w |}).

Definition logger (l : level) (msg : string) : io unit :=
  fun w => (tt, {| stdout := stdout w; files := files w;
                   logged := logged w ++ [(l, msg)]; calls := calls w |}).

Definition called (c : call) : io unit :=
  fun w => (tt, {| stdout := stdout w; files := files w;
                   logged := logged w; calls := calls w ++ [c] |}).

(** Truth value of an optional path: [None] and the empty string are false. *)
Definition given (p : option text) : bool :=
  match p with
  | Some (_ :: _) => true
  | _ => false
  end.

Definition path_of (p : option text) : text :=
  match p with Some q => q | None => [] end.

Section Main.

Local Open Scope io_scope.

Variable U : ucd.

(** [build_agent_executor(config, skills=...)]. *)
Variable build_agent_executor : list text -> build_outcome.

Definition main (a : args) : io Z :=
  logger INFO "Building executor with strategy" ;;
  called (CallBuild [args_strategy a]) ;;
  match build_agent_executor [args_strategy a] with
  | Raises exc =>
      logger ERROR "Failed to build executor" ;;
      ret 1%Z
  | Returns ex =>
      let prompt := _build_selection_prompt (args_max_stocks a) in
      logger INFO "Sending selection prompt to agent..." ;;
      called (CallRun prompt) ;;
      let result := executor_run ex prompt in
      if negb (success result) then
        logger ERROR "Agent execution failed" ;;
        print [] ;;
        ret 1%Z
      else
        let report_text := content result in
        logger INFO "Agent returned chars" ;;
        (if given (args_report a) then
           write_text (path_of (args_report a)) report_text ;;
           logger INFO "Full report saved"
         else ret tt) ;;
        let codes := _extract_stock_codes U report_text (args_market a) in
        let codes := slice_to codes (args_max_stocks a) in
        match codes with
        | [] =>
            logger WARNING "No stock codes found in agent output." ;;
            logger WARNING "--- agent output (first 500 chars) ---" ;;
            print [] ;;
            ret 0%Z
        | _ :: _ =>
            let csv_codes := join (py ",") codes in
            logger INFO "Selected stocks" ;;
            (if given (args_output a) then
               write_text (path_of (args_output a)) csv_codes ;;
               logger INFO "Codes saved"
             else ret tt) ;;
            print csv_codes ;;
            ret 0%Z
        end
  end.

(** The process: [sys.exit(main())] from a fresh world. *)
Definition run_program (a : args) : Z * world := main a world0.

End Main.

(** ** The process

    [main] above is the program on the runs where every call it makes
    returns.  The process [sys.exit(main())] ends in more ways.  [parse_args]
    leaves through [SystemExit] when argparse rejects the command line
    (status 2) or prints the help (status 0).  [setup_logging], [get_config],
    [executor.run] and the two file writes may raise; no [try] of [main]
    covers them, so the exception leaves [main] and the interpreter exits
    with status 1. *)

(** A call returns a value or raises. *)
Inductive attempt (A : Type) : Type :=
| Done (a : A)
| Raised (exc : text).

Arguments Done {A} a.
Arguments Raised {A} exc.

(** [parse_args()]: the namespace, or argparse's exit with what it printed
    on stdout. *)
Inductive parse_outcome : Type :=
| Parsed (a : args)
| SystemExit (status : Z) (printed : text).

Record live_executor : Type := { live_run : string -> attempt agent_result }.

(** What surrounds a run: the command line as argparse reads it,
    [setup_logging] and [get_config], the factory, and the paths that can be
    written. *)
Record host : Type := {
  parse_args : parse_outcome;
  get_config : attempt unit;
  build_executor : list text -> attempt live_executor;
  can_write : text -> bool
}.

Section Process.

Local Open Scope io_scope.

Variable U : ucd.
Variable H : host.

(** The two lines that write a file, followed by [k] when they return. *)
Definition try_write (p data : text) (k : io (attempt Z)) : io (attempt Z) :=
  if can_write H p then write_text p data ;; k
  else ret (Raised (py "OSError")).

(** Lines 124 to 179, with the exceptions that leave [main]. *)
Definition main_live (a : args) : io (attempt Z) :=
  match get_config H with
  | Raised exc => ret (Raised exc)
  | Done _ =>
      logger INFO "Building executor with strategy" ;;
      called (CallBuild [args_strategy a]) ;;
      match build_executor H [args_strategy a] with
      | Raised exc =>
          logger ERROR "Failed to build executor" ;;
          ret (Done 1%Z)
      | Done ex =>
          let prompt := _build_selection_prompt (args_max_stocks a) in
          logger INFO "Sending selection prompt to agent..." ;;
          called (CallRun prompt) ;;
          match live_run ex prompt with
          | Raised exc => ret (Raised exc)
          | Done result =>
              if negb (success result) then
                logger ERROR "Agent execution failed" ;;
                print [] ;;
                ret (Done 1%Z)
              else
                let report_text := content result in
                let extract_and_print : io (attempt Z) :=
                  let codes := _extract_stock_codes U report_text (args_market a) in
                  let codes := slice_to codes (args_max_stocks a) in
                  match codes with
                  | [] =>
                      logger WARNING "No stock codes found in agent output." ;;
                      logger WARNING "--- agent output (first 500 chars) ---" ;;
                      print [] ;;
                      ret (Done 0%Z)
                  | _ :: _ =>
                      let csv_codes := join (py ",") codes in
                      logger INFO "Selected stocks" ;;
                      let print_codes : io (attempt Z) :=
                        print csv_codes ;; ret (Done 0%Z) in
                      if given (args_output a) then
                        try_write (path_of (args_output a)) csv_codes
                          (logger INFO "Codes saved" ;; print_codes)
                      else print_codes
                  end in
                logger INFO "Agent returned chars" ;;
                if given (args_report a) then
                  try_write (path_of (args_report a)) report_text
                    (logger INFO "Full report saved" ;; extract_and_print)
                else extract_and_print
          end
      end
  end.

(** The exit status of the interpreter: the value [main] returns, or 1 when
    an exception leaves it. *)
Definition exit_of (r : attempt Z) : Z :=
  match r with
  | Done n => n
  | Raised _ => 1%Z
  end.

(** [sys.exit(main())], [parse_args] included. *)
Definition process : Z * world :=
  match parse_args H with
  | SystemExit status printed =>
      (status, {| stdout := printed; files := []; logged := []; calls := [] |})
  | Parsed a =>
      let (r, w) := main_live a world0 in (exit_of r, w)
  end.

End Process.

(** A host on which every call returns and every path can be written. *)
Definition calm_host (a : args) (build : list text -> build_outcome) : host :=
  {| parse_args := Parsed a;
     get_config := Done tt;
     build_executor := fun skills =>
       match build skills with
       | Raises exc => Raised exc
       | Returns ex => Done {| live_run := fun t => Done (executor_run ex t) |}
       end;
     can_write := fun _ => true |}.

(** The two failures [main] reports, on a host. *)
Definition construction_raised (H : host) (a : args) : Prop :=
  exists exc, build_executor H [args_strategy a] = Raised exc.

Definition failure_reported (H : host) (a : args) : Prop :=
  exists ex r, build_executor H [args_strategy a] = Done ex /\
    live_run ex (_build_selection_prompt (args_max_stocks a)) = Done r /\
    success r = false.

(** [main] returns: no exception leaves it. *)
Definition main_returns (U : ucd) (H : host) (a : args) : Prop :=
  exists n, fst (main_live U H a world0) = Done n.

(** A host whose executor raises from [run], and one whose command line
    argparse rejects. *)
Definition host_run_raises : host :=
  {| parse_args := Parsed {| args_strategy := py "short_term_selection";
                             args_max_stocks := 10; args_output := None;
                             args_report := None; args_market := cn;
                             args_debug := false |};
     get_config := Done tt;
     build_executor := fun _ =>
       Done {| live_run := fun _ => Raised (py "TimeoutError") |};
     can_write := fun _ => true |}.

Definition host_usage_error : host :=
  {| parse_args := SystemExit 2 [];
     get_config := Done tt;
     build_executor := fun _ => Raised (py "unreachable");
     can_write := fun _ => true |}.

(** * Vocabulary of the statements *)

Definition accepts (k : cont) (j : nat) (g : grp) : Prop := exists m, k j g = Some m.

(** Every position of [s[a:b]] holds a character of the class [P]. *)
Definition span_in (s : text) (P : char -> bool) (a b : nat) : Prop :=
  forall k, a <= k < b -> exists c, nth_error s k = Some c /\ P c = true.

Fixpoint groupless (r : regex) : bool :=
  match r with
  | Cls _ | WordB => true
  | Seq a b | Alt a b => groupless a && groupless b
  | Opt a | Rep _ _ a => groupless a
  | Grp _ => false
  end.

Section Tokens.

Variable U : ucd.
Variable s : text.

(** One character of the class [cl] stands at [i]. *)
Definition char_at (cl : cclass) (i : nat) : Prop :=
  exists c, nth_error s i = Some c /\ in_class U cl c = true.

(** A token of [_HKSTOCK_FULL] stands at [i]: the two letters of the marker
    in either case, five decimal digits, and a word boundary on each side. *)
Definition hk_token_at (i : nat) : Prop :=
  boundary U s i = true /\
  char_at (LitI (ch "H")) i /\
  char_at (LitI (ch "K")) (i + 1) /\
  span_in s (isdecimal U) (i + 2) (i + 7) /\
  boundary U s (i + 7) = true.

(** A token of [_USSTOCK_FULL] fills [s[i:j]]: one to five capital letters
    of ASCII with a word boundary on each side. *)
Definition ticker_at (i j : nat) : Prop :=
  boundary U s i = true /\
  i + 1 <= j <= i + 5 /\
  span_in s ascii_upper i j /\
  boundary U s j = true.

End Tokens.

(** The keys of a list in the order of their first occurrence. *)
Fixpoint first_occurrences (l : list text) : list text :=
  match l with
  | [] => []
  | x :: rest => x :: filter (fun y => negb (text_eqb x y)) (first_occurrences rest)
  end.

(** The keys the three loops insert, in the order of the matches. *)
Definition astock_tokens (U : ucd) (s : text) : list text :=
  map (group_code s)
      (filter (fun m => first_ok (group_code s m)) (finditer U s _ASTOCK_FULL)).

Definition hkstock_tokens (U : ucd) (s : text) (mk : market) : list text :=
  if in_hk_scope mk
  then map (fun m => upper (group0 s m)) (finditer U s _HKSTOCK_FULL)
  else [].

Definition usstock_tokens (U : ucd) (s : text) (mk : market) : list text :=
  if in_us_scope mk
  then map (group0 s)
           (filter (fun m => search U (context_of s m) price_or_pct)
                   (finditer U s _USSTOCK_FULL))
  else [].

(** The leading digit is one of 0, 1, 2, 3, 6. *)
Definition leading_allowed (t : text) : bool :=
  match t with
  | c :: _ => N_eqb_in c (py "01236")
  | [] => false
  end.

Definition all_decimal (U : ucd) (t : text) : Prop :=
  Forall (fun c => isdecimal U c = true) t.

Definition all_upper (t : text) : Prop :=
  Forall (fun c => ascii_upper c = true) t.

(** [finditer] yields its matches from left to right, none overlapping the
    next. *)
Definition before (m m' : rmatch) : Prop := m_end m <= m_start m'.

(** A dollar sign, a percent sign, a fullwidth yen sign, a yen sign, or a
    decimal digit. *)
Definition is_marker (U : ucd) (c : char) : bool :=
  (c =? 36)%N || (c =? 37)%N || (c =? 65509)%N || (c =? 165)%N || isdecimal U c.

(** The twenty characters before [s[i:j]], the match, and the twenty
    characters after it, as far as the text goes. *)
Definition window (s : text) (i j : nat) : text :=
  slice s (i - 20) (Nat.min (List.length s) (j + 20)).

Definition marker_near (U : ucd) (s : text) (i j : nat) : bool :=
  existsb (is_marker U) (window s i j).


(** An executor that reports a failure. *)
Definition failing (e : text) : executor :=
  {| executor_run := fun _ => {| success := false; error := e; content := [] |} |}.

(** The defaults of [parse_args] with [--max-stocks] and [--market] set. *)
Definition args_with (max_stocks : Z) (mk : market) : args :=
  {| args_strategy := py "short_term_selection"; args_max_stocks := max_stocks;
     args_output := None; args_report := None; args_market := mk;
     args_debug := false |}.

Definition is_build (c : call) : bool :=
  match c with CallBuild _ => true | CallRun _ => false end.

Definition is_run (c : call) : bool :=
  match c with CallBuild _ => false | CallRun _ => true end.

Section Outcome.

Variable U : ucd.
Variable a : args.

(** The result object of the run, when the executor was built. *)
Definition result_of (ex : executor) : agent_result :=
  executor_run ex (_build_selection_prompt (args_max_stocks a)).

(** The codes the program keeps from the report of [ex]. *)
Definition kept_codes (ex : executor) : list text :=
  slice_to (_extract_stock_codes U (content (result_of ex)) (args_market a))
           (args_max_stocks a).

End Outcome.

(** The output is one line: its only newline is its last character. *)
Definition one_line (out : text) : Prop :=
  exists line, out = line ++ [newline] /\ ~ In newline line.

(** The two failures the program knows. *)
Definition build_failed (build : list text -> build_outcome) (a : args) : Prop :=
  exists exc, build [args_strategy a] = Raises exc.

Definition run_failed (build : list text -> build_outcome) (a : args) : Prop :=
  exists ex, build [args_strategy a] = Returns ex /\ success (result_of a ex) = false.

(** ** Vocabulary of the further properties *)

(** A database in which, as in CPython, a decimal character is alphanumeric
    ([str.isalnum] holds when [str.isdecimal] does), and which is faithful on
    ASCII. *)
Definition coherent (U : ucd) : Prop :=
  ascii_faithful U /\ forall c, isdecimal U c = true -> isalnum U c = true.

Section DomesticTokens.

Variable U : ucd.
Variable s : text.

(** The exchange marker, in either case, fills [s[i:i+2]]. *)
Definition sh_or_sz_at (i : nat) : Prop :=
  char_at U s (LitI (ch "S")) i /\
  (char_at U s (LitI (ch "H")) (i + 1) \/ char_at U s (LitI (ch "Z")) (i + 1)).

(** Six digits, the first of them one of 0, 3, 6, 1, 2, fill [s[a:a+6]]. *)
Definition code_at (a : nat) : Prop :=
  (exists c, nth_error s a = Some c /\ N_eqb_in c (py "03612") = true) /\
  span_in s (isdecimal U) (S a) (a + 6).

(** A match of [_ASTOCK_FULL] fills [s[i:j]] with its code at [a]: a
    boundary, the marker or nothing, the code, a dot and the marker or
    nothing, a boundary. *)
Definition astock_at (i a j : nat) : Prop :=
  boundary U s i = true /\
  (a = i \/ (a = i + 2 /\ sh_or_sz_at i)) /\
  code_at a /\
  (j = a + 6 \/
   (j = a + 9 /\ char_at U s (Lit (ch ".")) (a + 6) /\ sh_or_sz_at (a + 7))) /\
  boundary U s j = true.

(** A six-digit code stands alone at [a], between two word boundaries. *)
Definition bare_code_at (a : nat) : Prop :=
  boundary U s a = true /\ code_at a /\ boundary U s (a + 6) = true.

End DomesticTokens.

(** A character that can begin a token: one of the digits 0, 1, 2, 3, 6, the
    letter h, or a capital letter of ASCII. *)
Definition may_begin_token (c : char) : bool :=
  N_eqb_in c (py "01236h") || ascii_upper c.

Definition comma : char := 44%N.

(** A printable code: not empty, and free of commas. *)
Definition csv_safe (t : text) : Prop := t <> [] /\ ~ In comma t.

(** An ASCII character that is neither a digit nor a capital letter. *)
Definition ascii_other (c : char) : Prop :=
  (c < 128)%N /\ ascii_digit c = false /\ ascii_upper c = false.

(** A record of level [l] was logged. *)
Definition logged_at (l : level) (w : world) : Prop :=
  exists msg, In (l, msg) (logged w).

Section Written.

Variable U : ucd.
Variable a : args.


End Written.

(** A second database: the ASCII one and the fullwidth digits U+FF10 to
    U+FF19, which Unicode has as decimal digits. *)
Definition fullwidth_digit (c : char) : bool := ((65296 <=? c) && (c <=? 65305))%N.

Definition wide_ucd : ucd := {|
  isdecimal := fun c => ascii_digit c || fullwidth_digit c;
  isalnum := fun c => isalnum ascii_ucd c || fullwidth_digit c
|}.

(** * The matcher against its specification *)

Section MatcherFacts.

Variable U : ucd.
Variable s : text.

Lemma rep_loop_sound (body : nat -> grp -> cont -> option rmatch)
    (spec : nat -> grp -> nat -> grp -> Prop) (k : cont) :
  (forall i g k' m, body i g k' = Some m ->
     exists j g', spec i g j g' /\ k' j g' = Some m) ->
  forall hi lo i g m,
    rep_loop body k lo hi i g = Some m ->
    exists n j g', lo <= n <= hi /\ rep_matches spec n i g j g' /\ k j g' = Some m.
Proof.
  intros Hbody hi.
  induction hi as [|hi IH]; intros lo i g m H; simpl in H.
  - destruct lo; [|discriminate].
    exists 0, i, g. simpl. repeat split; auto.
  - destruct (body i g _) as [m'|] eqn:Hb.
    + injection H as ->.
      apply Hbody in Hb. destruct Hb as (j1 & g1 & Hs & Hr).
      apply IH in Hr. destruct Hr as (n & j & g' & Hn & Hm & Hk).
      exists (S n), j, g'. repeat split; try lia; auto.
      simpl. exists j1, g1. auto.
    + destruct lo; [|discriminate].
      exists 0, i, g. simpl. repeat split; auto; lia.
Qed.

Lemma try_match_sound (r : regex) :
  forall i g k m, try_match U s r i g k = Some m ->
    exists j g', matches U s r i g j g' /\ k j g' = Some m.
Proof.
  induction r as [cl| |r1 IH1 r2 IH2|r1 IH1 r2 IH2|r1 IH1|lo hi r1 IH1|r1 IH1];
    intros i g k m H; simpl in H.
  - destruct (nth_error s i) as [c|] eqn:Hc; [|discriminate].
    destruct (in_class U cl c) eqn:Hcl; [|discriminate].
    exists (S i), g. split; auto. simpl. exists c. auto.
  - destruct (boundary U s i) eqn:Hb; [|discriminate].
    exists i, g. simpl. auto.
  - apply IH1 in H. destruct H as (j1 & g1 & H1 & H).
    apply IH2 in H. destruct H as (j & g' & H2 & H).
    exists j, g'. split; auto. simpl. exists j1, g1. auto.
  - destruct (try_match U s r1 i g k) as [m'|] eqn:H1.
    + injection H as ->. apply IH1 in H1. destruct H1 as (j & g' & H1 & Hk).
      exists j, g'. simpl. auto.
    + apply IH2 in H. destruct H as (j & g' & H2 & Hk).
      exists j, g'. simpl. auto.
  - destruct (try_match U s r1 i g k) as [m'|] eqn:H1.
    + injection H as ->. apply IH1 in H1. destruct H1 as (j & g' & H1 & Hk).
      exists j, g'. simpl. auto.
    + exists i, g. simpl. auto.
  - apply rep_loop_sound with (spec := matches U s r1) in H; [|exact IH1].
    destruct H as (n & j & g' & Hn & Hm & Hk).
    exists j, g'. split; auto. simpl. exists n. auto.
  - apply IH1 in H. destruct H as (j & g0 & H1 & Hk).
    exists j, (Some (i, j)). split; auto. simpl. exists g0. auto.
Qed.

Lemma rep_loop_complete (body : nat -> grp -> cont -> option rmatch)
    (spec : nat -> grp -> nat -> grp -> Prop) (k : cont) (j : nat) (g' : grp) :
  (forall i g j' g'' k', spec i g j' g'' -> accepts k' j' g'' ->
     exists m, body i g k' = Some m) ->
  accepts k j g' ->
  forall n hi lo i g,
    lo <= n <= hi -> rep_matches spec n i g j g' ->
    exists m, rep_loop body k lo hi i g = Some m.
Proof.
  intros Hbody Hk n.
  induction n as [|n IH]; intros hi lo i g Hn Hm; simpl in Hm.
  - destruct Hm as [-> ->]. assert (lo = 0) as -> by lia.
    destruct hi; simpl; [exact Hk|].
    destruct (body i g _) as [m|]; [eauto|exact Hk].
  - destruct Hm as (j1 & g1 & Hs & Hm).
    destruct hi as [|hi]; [lia|]. simpl.
    assert (Hr : accepts (fun j0 g0 => rep_loop body k (pred lo) hi j0 g0) j1 g1).
    { apply IH; [lia|exact Hm]. }
    destruct (Hbody _ _ _ _ _ Hs Hr) as [m ->]. eauto.
Qed.

Lemma try_match_complete (r : regex) :
  forall i g j g' k, matches U s r i g j g' -> accepts k j g' ->
    exists m, try_match U s r i g k = Some m.
Proof.
  induction r as [cl| |r1 IH1 r2 IH2|r1 IH1 r2 IH2|r1 IH1|lo hi r1 IH1|r1 IH1];
    intros i g j g' k H Hk; simpl in H |- *.
  - destruct H as (c & -> & -> & -> & ->). exact Hk.
  - destruct H as (-> & -> & ->). exact Hk.
  - destruct H as (j1 & g1 & H1 & H2).
    eapply IH1; [exact H1|]. eapply IH2; eauto.
  - destruct H as [H|H].
    + destruct (IH1 _ _ _ _ _ H Hk) as [m ->]. eauto.
    + destruct (try_match U s r1 i g k); [eauto|]. eapply IH2; eauto.
  - destruct H as [H|[-> ->]].
    + destruct (IH1 _ _ _ _ _ H Hk) as [m ->]. eauto.
    + destruct (try_match U s r1 i g k); [eauto|exact Hk].
  - destruct H as (n & Hn & H).
    eapply rep_loop_complete with (spec := matches U s r1); eauto.
  - destruct H as (g0 & H & ->).
    eapply IH1; [exact H|]. exact Hk.
Qed.

(** A match object returned at [i] spans what the pattern matches from [i]. *)
Lemma match_at_sound (r : regex) (i : nat) (m : rmatch) :
  match_at U s r i = Some m ->
  m_start m = i /\ matches U s r i None (m_end m) (m_code m).
Proof.
  unfold match_at. intros H.
  apply try_match_sound in H. destruct H as (j & g' & H & Hk).
  injection Hk as <-. simpl. auto.
Qed.

Lemma match_at_complete (r : regex) (i j : nat) (g' : grp) :
  matches U s r i None j g' -> exists m, match_at U s r i = Some m.
Proof.
  intros H. unfold match_at.
  eapply try_match_complete; [exact H|]. unfold accepts. eauto.
Qed.

(** No pattern moves backwards. *)
Lemma rep_matches_le (spec : nat -> grp -> nat -> grp -> Prop) :
  (forall i g j g', spec i g j g' -> i <= j) ->
  forall n i g j g', rep_matches spec n i g j g' -> i <= j.
Proof.
  intros Hs n. induction n as [|n IH]; intros i g j g' H; simpl in H.
  - destruct H as [-> _]. lia.
  - destruct H as (j1 & g1 & H1 & H2).
    apply Hs in H1. apply IH in H2. lia.
Qed.

Lemma matches_le (r : regex) :
  forall i g j g', matches U s r i g j g' -> i <= j.
Proof.
  induction r as [cl| |r1 IH1 r2 IH2|r1 IH1 r2 IH2|r1 IH1|lo hi r1 IH1|r1 IH1];
    intros i g j g' H; simpl in H.
  - destruct H as (c & _ & _ & -> & _). lia.
  - destruct H as (_ & -> & _). lia.
  - destruct H as (j1 & g1 & H1 & H2). apply IH1 in H1. apply IH2 in H2. lia.
  - destruct H as [H|H]; eauto.
  - destruct H as [H|[-> _]]; eauto.
  - destruct H as (n & _ & H). eapply rep_matches_le; eauto.
  - destruct H as (g0 & H & _). eauto.
Qed.

(** Every match of the scan was returned at its own start, after the point
    where the scan resumed. *)
Lemma scan_sound (r : regex) (starts : list nat) :
  forall resume m, In m (scan U s r starts resume) ->
    In (m_start m) starts /\ resume <= m_start m /\
    match_at U s r (m_start m) = Some m.
Proof.
  induction starts as [|i rest IH]; intros resume m H; simpl in H; [contradiction|].
  destruct (i <? resume) eqn:Hlt.
  - apply IH in H. simpl. tauto.
  - apply Nat.ltb_ge in Hlt.
    destruct (match_at U s r i) as [m0|] eqn:Hm.
    + destruct (match_at_sound _ _ Hm) as [Hs Hle]. apply matches_le in Hle.
      destruct H as [<-|H].
      * rewrite Hs. simpl. auto.
      * apply IH in H. simpl. repeat split; try tauto. lia.
    + apply IH in H. simpl. tauto.
Qed.

Lemma finditer_sound (r : regex) (m : rmatch) :
  In m (finditer U s r) ->
  m_start m <= List.length s /\ matches U s r (m_start m) None (m_end m) (m_code m).
Proof.
  unfold finditer. intros H. apply scan_sound in H.
  destruct H as (Hin & _ & Hm).
  apply in_seq in Hin. apply match_at_sound in Hm. split; [lia|apply Hm].
Qed.

End MatcherFacts.

(** * Slices *)

Section SliceFacts.

Variable s : text.

Lemma slice_nth (a b k : nat) :
  nth_error (slice s a b) k = if k <? b - a then nth_error s (a + k) else None.
Proof.
  unfold slice. rewrite nth_error_firstn.
  destruct (k <? b - a); [apply nth_error_skipn|reflexivity].
Qed.

Lemma slice_length (a b : nat) :
  b <= List.length s -> List.length (slice s a b) = b - a.
Proof.
  intros H. unfold slice. rewrite length_firstn, length_skipn. lia.
Qed.

Lemma slice_cons (a b : nat) (c : char) :
  nth_error s a = Some c -> a < b -> slice s a b = c :: slice s (S a) b.
Proof.
  intros Hc Hlt. unfold slice.
  assert (Hs : skipn a s = c :: skipn (S a) s).
  { rewrite <- (firstn_skipn_middle _ _ Hc) at 1.
    assert (Hl : a <= List.length s).
    { apply Nat.lt_le_incl, nth_error_Some. congruence. }
    rewrite skipn_app, skipn_firstn_comm.
    rewrite length_firstn.
    replace (a - a) with 0 by lia.
    replace (a - Nat.min a (List.length s)) with 0 by lia.
    reflexivity. }
  rewrite Hs. replace (b - a) with (S (b - S a)) by lia. reflexivity.
Qed.

Lemma span_in_bound (P : char -> bool) (a b : nat) :
  span_in s P a b -> a < b -> b <= List.length s.
Proof.
  intros H Hlt. destruct (H (b - 1)) as (c & Hc & _); [lia|].
  assert (b - 1 < List.length s) by (apply nth_error_Some; congruence). lia.
Qed.

Lemma slice_Forall (P : char -> bool) (a b : nat) :
  span_in s P a b -> Forall (fun c => P c = true) (slice s a b).
Proof.
  intros H. apply Forall_forall. intros x Hx.
  apply In_nth_error in Hx. destruct Hx as [k Hk].
  rewrite slice_nth in Hk. destruct (k <? b - a) eqn:Hlt; [|discriminate].
  apply Nat.ltb_lt in Hlt.
  destruct (H (a + k)) as (c & Hc & HP); [lia|]. congruence.
Qed.

Lemma span_in_slice_length (P : char -> bool) (a b : nat) :
  span_in s P a b -> a <= b -> List.length (slice s a b) = b - a.
Proof.
  intros H Hle. destruct (Nat.eq_dec a b) as [->|Hne].
  - unfold slice. rewrite Nat.sub_diag. reflexivity.
  - apply slice_length. eapply span_in_bound; eauto. lia.
Qed.

Lemma span_in_join (P : char -> bool) (a b c : nat) :
  span_in s P a b -> span_in s P b c -> span_in s P a c.
Proof.
  intros H1 H2 k Hk. destruct (Nat.lt_ge_cases k b); [apply H1|apply H2]; lia.
Qed.

Lemma span_in_weaken (P Q : char -> bool) (a b : nat) :
  (forall c, P c = true -> Q c = true) -> span_in s P a b -> span_in s Q a b.
Proof.
  intros HPQ H k Hk. destruct (H k Hk) as (c & Hc & HP). eauto.
Qed.

Lemma span_in_one (P : char -> bool) (a : nat) (c : char) :
  nth_error s a = Some c -> P c = true -> span_in s P a (S a).
Proof.
  intros Hc HP k Hk. assert (k = a) as -> by lia. eauto.
Qed.

End SliceFacts.

(** * What the three patterns match *)

Section PatternFacts.

Variable U : ucd.
Variable s : text.

Lemma matches_groupless (r : regex) :
  groupless r = true ->
  forall i g j g', matches U s r i g j g' -> g' = g.
Proof.
  induction r as [cl| |r1 IH1 r2 IH2|r1 IH1 r2 IH2|r1 IH1|lo hi r1 IH1|r1 IH1];
    simpl; intros Hg i g j g' H; try discriminate.
  - destruct H as (c & _ & _ & _ & ->). reflexivity.
  - destruct H as (_ & _ & ->). reflexivity.
  - apply andb_true_iff in Hg. destruct Hg as [Hg1 Hg2].
    destruct H as (j1 & g1 & H1 & H2).
    apply (IH1 Hg1) in H1. apply (IH2 Hg2) in H2. congruence.
  - apply andb_true_iff in Hg. destruct Hg as [Hg1 Hg2].
    destruct H as [H|H]; eauto.
  - destruct H as [H|[_ ->]]; eauto.
  - destruct H as (n & _ & H). revert i g H.
    induction n as [|n IHn]; simpl; intros i g H.
    + tauto.
    + destruct H as (j1 & g1 & H1 & H2).
      apply (IH1 Hg) in H1. apply IHn in H2. congruence.
Qed.

(** A repeated character class matches a run of its characters. *)
Lemma rep_cls_span (cl : cclass) (n : nat) :
  forall i g j g', rep_matches (matches U s (Cls cl)) n i g j g' ->
    j = i + n /\ g' = g /\ span_in s (in_class U cl) i j.
Proof.
  induction n as [|n IH]; simpl; intros i g j g' H.
  - destruct H as [-> ->]. repeat split; [lia|]. intros k Hk. lia.
  - destruct H as (j1 & g1 & (c & Hc & Hcl & -> & ->) & H).
    apply IH in H. destruct H as (-> & -> & Hs).
    repeat split; [lia|].
    eapply span_in_join; [eapply span_in_one; eauto|exact Hs].
Qed.

Lemma matches_rep_cls (lo hi : nat) (cl : cclass) (i j : nat) (g g' : grp) :
  matches U s (Rep lo hi (Cls cl)) i g j g' ->
  i + lo <= j <= i + hi /\ g' = g /\ span_in s (in_class U cl) i j.
Proof.
  simpl. intros (n & Hn & H). apply rep_cls_span in H.
  destruct H as (-> & -> & Hs). repeat split; auto; lia.
Qed.

Lemma matches_cls (cl : cclass) (i j : nat) (g g' : grp) :
  matches U s (Cls cl) i g j g' ->
  j = S i /\ g' = g /\ exists c, nth_error s i = Some c /\ in_class U cl c = true.
Proof.
  simpl. intros (c & Hc & Hcl & -> & ->). eauto.
Qed.

Lemma span_rep_cls (cl : cclass) (g : grp) (n : nat) :
  forall i, span_in s (in_class U cl) i (i + n) ->
    rep_matches (matches U s (Cls cl)) n i g (i + n) g.
Proof.
  induction n as [|n IH]; simpl; intros i H.
  - split; [lia|reflexivity].
  - destruct (H i) as (c & Hc & Hcl); [lia|].
    exists (S i), g. split.
    + exists c. auto.
    + replace (i + S n) with (S i + n) by lia. apply IH.
      intros k Hk. apply H. lia.
Qed.

Lemma matches_seq (r1 r2 : regex) (i j : nat) (g g' : grp) :
  matches U s (Seq r1 r2) i g j g' <->
  exists m gm, matches U s r1 i g m gm /\ matches U s r2 m gm j g'.
Proof. reflexivity. Qed.

Lemma matches_wordb (i j : nat) (g g' : grp) :
  matches U s WordB i g j g' <-> boundary U s i = true /\ j = i /\ g' = g.
Proof. reflexivity. Qed.

Lemma matches_hk (i j : nat) (g g' : grp) :
  matches U s _HKSTOCK_FULL i g j g' <-> hk_token_at U s i /\ j = i + 7 /\ g' = g.
Proof.
  unfold _HKSTOCK_FULL, hk_token_at. split.
  - intros H.
    apply matches_seq in H. destruct H as (j1 & g1 & Hb & H).
    apply matches_wordb in Hb. destruct Hb as (Hb & -> & ->).
    apply matches_seq in H. destruct H as (j2 & g2 & Hh & H).
    apply matches_cls in Hh. destruct Hh as (-> & -> & Hh).
    apply matches_seq in H. destruct H as (j3 & g3 & Hk & H).
    apply matches_cls in Hk. destruct Hk as (-> & -> & Hk).
    apply matches_seq in H. destruct H as (j4 & g4 & Hd & H).
    apply matches_rep_cls in Hd. destruct Hd as (Hj & -> & Hd).
    apply matches_wordb in H. destruct H as (He & -> & ->).
    assert (j4 = i + 7) as -> by lia.
    replace (i + 1) with (S i) by lia. replace (i + 2) with (S (S i)) by lia.
    repeat split; auto.
  - intros ((Hb & Hh & Hk & Hd & He) & -> & ->).
    apply matches_seq. exists i, g. split; [apply matches_wordb; auto|].
    apply matches_seq. exists (S i), g. split.
    { destruct Hh as (c & Hc & Hcl). exists c. auto. }
    apply matches_seq. exists (S (S i)), g. split.
    { replace (i + 1) with (S i) in Hk by lia.
      destruct Hk as (c & Hc & Hcl). exists c. auto. }
    apply matches_seq. exists (i + 7), g. split.
    { exists 5. split; [lia|].
      replace (i + 7) with (S (S i) + 5) by lia. apply span_rep_cls.
      replace (S (S i) + 5) with (i + 7) by lia.
      replace (S (S i)) with (i + 2) by lia. exact Hd. }
    apply matches_wordb. auto.
Qed.

Lemma matches_us (i j : nat) (g g' : grp) :
  matches U s _USSTOCK_FULL i g j g' <-> ticker_at U s i j /\ g' = g.
Proof.
  unfold _USSTOCK_FULL, ticker_at. split.
  - intros H.
    apply matches_seq in H. destruct H as (j1 & g1 & Hb & H).
    apply matches_wordb in Hb. destruct Hb as (Hb & -> & ->).
    apply matches_seq in H. destruct H as (j2 & g2 & Hl & H).
    apply matches_rep_cls in Hl. destruct Hl as (Hj & -> & Hl).
    apply matches_wordb in H. destruct H as (He & -> & ->).
    repeat split; auto; lia.
  - intros ((Hb & Hj & Hl & He) & ->).
    apply matches_seq. exists i, g. split; [apply matches_wordb; auto|].
    apply matches_seq. exists j, g. split; [|apply matches_wordb; auto].
    exists (j - i). split; [lia|].
    replace j with (i + (j - i)) at 2 by lia. apply span_rep_cls.
    replace (i + (j - i)) with j by lia. exact Hl.
Qed.

(** The group of a match of [_ASTOCK_FULL] is set, six characters long, and
    begins with one of the five digits the two alternatives allow. *)
Lemma matches_astock (i j : nat) (g' : grp) :
  matches U s _ASTOCK_FULL i None j g' ->
  exists a c, g' = Some (a, a + 6) /\
    nth_error s a = Some c /\
    N_eqb_in c (py "03612") = true /\
    span_in s (isdecimal U) (S a) (a + 6).
Proof.
  unfold _ASTOCK_FULL. intros H.
  apply matches_seq in H. destruct H as (j1 & g1 & Hb & H).
  apply matches_wordb in Hb. destruct Hb as (Hb & -> & ->).
  apply matches_seq in H. destruct H as (j2 & g2 & Hp & H).
  apply matches_groupless in Hp; [subst g2|reflexivity].
  apply matches_seq in H. destruct H as (j3 & g3 & Hg & H).
  apply matches_seq in H. destruct H as (j4 & g4 & Hx & H).
  apply matches_groupless in Hx; [subst g4|reflexivity].
  apply matches_groupless in H; [subst g'|reflexivity].
  destruct Hg as (g0 & Hg & ->).
  assert (Hc : exists c, nth_error s j2 = Some c /\ N_eqb_in c (py "03612") = true /\
                         j3 = j2 + 6 /\ span_in s (isdecimal U) (S j2) (j2 + 6)).
  { destruct Hg as [Hg|Hg];
      apply matches_seq in Hg; destruct Hg as (j5 & g5 & Hc & Hd);
      apply matches_cls in Hc; destruct Hc as (-> & -> & c & Hc & Hcl);
      apply matches_rep_cls in Hd; destruct Hd as (Hj & _ & Hd);
      assert (j3 = j2 + 6) as -> by lia;
      exists c; repeat split; auto;
      simpl in Hcl |- *; unfold ch in Hcl; simpl in Hcl;
      repeat (apply orb_true_iff in Hcl; destruct Hcl as [Hcl|Hcl]);
      rewrite Hcl; repeat rewrite orb_true_r; reflexivity. }
  destruct Hc as (c & Hc & Hok & -> & Hd).
  exists j2, c. auto.
Qed.

(** None of the patterns matches the empty string, so that the scanner may
    resume where a match ended. *)
Lemma matches_astock_span (i j : nat) (g g' : grp) :
  matches U s _ASTOCK_FULL i g j g' -> i + 6 <= j.
Proof.
  unfold _ASTOCK_FULL. intros H.
  apply matches_seq in H. destruct H as (j1 & g1 & Hb & H).
  apply matches_wordb in Hb. destruct Hb as (_ & -> & ->).
  apply matches_seq in H. destruct H as (j2 & g2 & Hp & H).
  apply matches_le in Hp.
  apply matches_seq in H. destruct H as (j3 & g3 & Hg & H).
  apply matches_le in H.
  destruct Hg as (g0 & Hg & _).
  assert (j3 = j2 + 6); [|lia].
  destruct Hg as [Hg|Hg];
    apply matches_seq in Hg; destruct Hg as (j5 & g5 & Hc & Hd);
    apply matches_cls in Hc; destruct Hc as (-> & _ & _);
    apply matches_rep_cls in Hd; lia.
Qed.

Lemma patterns_consume (r : regex) (i j : nat) (g g' : grp) :
  In r [_ASTOCK_FULL; _HKSTOCK_FULL; _USSTOCK_FULL; price_or_pct] ->
  matches U s r i g j g' -> i < j.
Proof.
  intros [<-|[<-|[<-|[<-|[]]]]] H.
  - apply matches_astock_span in H. lia.
  - apply matches_hk in H. lia.
  - apply matches_us in H. destruct H as [(_ & H & _) _]. lia.
  - apply matches_cls in H. lia.
Qed.

End PatternFacts.

(** * The ordered set *)

Section DictFacts.

Lemma text_eqb_eq (a b : text) : text_eqb a b = true <-> a = b.
Proof.
  unfold text_eqb. destruct (list_eq_dec N.eq_dec a b); split; congruence.
Qed.

Lemma text_eqb_refl (a : text) : text_eqb a a = true.
Proof. apply text_eqb_eq. reflexivity. Qed.

Lemma contains_In (seen : dict) (k : text) : contains seen k = true <-> In k seen.
Proof.
  unfold contains. rewrite existsb_exists. split.
  - intros (x & Hx & He). apply text_eqb_eq in He. congruence.
  - intros H. exists k. split; [exact H|apply text_eqb_refl].
Qed.

Lemma contains_false (seen : dict) (k : text) : contains seen k = false <-> ~ In k seen.
Proof.
  rewrite <- contains_In. destruct (contains seen k); split; congruence.
Qed.

(** A key that is present is not inserted again, and keeps its place. *)
Lemma setdefault_present (seen : dict) (k : text) :
  In k seen -> setdefault seen k = seen.
Proof.
  intros H. unfold setdefault. apply contains_In in H. rewrite H. reflexivity.
Qed.

Lemma setdefault_absent (seen : dict) (k : text) :
  ~ In k seen -> setdefault seen k = seen ++ [k].
Proof.
  intros H. unfold setdefault. apply contains_false in H. rewrite H. reflexivity.
Qed.

Lemma filter_filter_comm (A : Type) (p q : A -> bool) (l : list A) :
  filter p (filter q l) = filter q (filter p l).
Proof.
  induction l as [|x l IH]; simpl; [reflexivity|].
  destruct (p x) eqn:Hp, (q x) eqn:Hq; simpl; rewrite ?Hp, ?Hq, IH; reflexivity.
Qed.

Lemma filter_first_occurrences (p : text -> bool) (l : list text) :
  filter p (first_occurrences l) = first_occurrences (filter p l).
Proof.
  induction l as [|x l IH]; simpl; [reflexivity|].
  destruct (p x) eqn:Hp; simpl.
  - rewrite filter_filter_comm, IH. reflexivity.
  - rewrite filter_filter_comm, <- IH.
    apply forallb_filter_id, forallb_forall. intros y Hy.
    apply filter_In in Hy. destruct Hy as [_ Hy].
    destruct (text_eqb x y) eqn:He; [|reflexivity].
    apply text_eqb_eq in He. congruence.
Qed.

Lemma filter_filter (A : Type) (p q : A -> bool) (l : list A) :
  filter p (filter q l) = filter (fun y => q y && p y) l.
Proof.
  induction l as [|x l IH]; simpl; [reflexivity|].
  destruct (q x); simpl; [destruct (p x)|]; rewrite IH; reflexivity.
Qed.

Lemma contains_app (seen : dict) (x y : text) :
  contains (seen ++ [x]) y = contains seen y || text_eqb x y.
Proof.
  unfold contains. rewrite existsb_app. simpl. rewrite orb_false_r.
  f_equal. destruct (text_eqb y x) eqn:H1, (text_eqb x y) eqn:H2; try reflexivity.
  - apply text_eqb_eq in H1. subst. rewrite text_eqb_refl in H2. discriminate.
  - apply text_eqb_eq in H2. subst. rewrite text_eqb_refl in H1. discriminate.
Qed.

(** The loop of [setdefault] calls appends, to the keys already seen, the
    new keys in the order of their first occurrence. *)
Lemma fold_setdefault (keys : list text) :
  forall seen,
    fold_left setdefault keys seen =
    seen ++ first_occurrences (filter (fun y => negb (contains seen y)) keys).
Proof.
  induction keys as [|x keys IH]; intros seen; simpl.
  - rewrite app_nil_r. reflexivity.
  - unfold setdefault at 2. destruct (contains seen x) eqn:Hc; simpl.
    + apply IH.
    + rewrite IH, <- app_assoc. simpl. do 2 f_equal.
      rewrite filter_first_occurrences, filter_filter. f_equal.
      apply filter_ext. intros y. rewrite contains_app. apply negb_orb.
Qed.

Lemma fold_setdefault_nil (keys : list text) :
  fold_left setdefault keys [] = first_occurrences keys.
Proof.
  rewrite fold_setdefault. simpl. f_equal.
  apply forallb_filter_id, forallb_forall. reflexivity.
Qed.

Lemma first_occurrences_In (l : list text) (y : text) :
  In y (first_occurrences l) <-> In y l.
Proof.
  induction l as [|x l IH]; simpl; [tauto|].
  rewrite filter_In, IH. split.
  - tauto.
  - intros [->|H]; [auto|].
    destruct (text_eqb x y) eqn:He.
    + apply text_eqb_eq in He. auto.
    + auto.
Qed.

Lemma first_occurrences_NoDup (l : list text) : NoDup (first_occurrences l).
Proof.
  induction l as [|x l IH]; simpl; constructor.
  - rewrite filter_In. intros [_ H]. rewrite text_eqb_refl in H. discriminate.
  - apply NoDup_filter, IH.
Qed.

(** Keys of a second list that do not occur in the first come after the
    keys of the first. *)
Lemma first_occurrences_app (l1 l2 : list text) :
  (forall y, In y l1 -> ~ In y l2) ->
  first_occurrences (l1 ++ l2) = first_occurrences l1 ++ first_occurrences l2.
Proof.
  intros Hd.
  rewrite <- (fold_setdefault_nil (l1 ++ l2)), fold_left_app.
  rewrite fold_setdefault_nil, fold_setdefault.
  do 2 f_equal.
  apply forallb_filter_id, forallb_forall. intros y Hy.
  destruct (contains (first_occurrences l1) y) eqn:Hc; [|reflexivity].
  apply contains_In in Hc. rewrite first_occurrences_In in Hc. destruct (Hd y Hc Hy).
Qed.

(** A loop that inserts [key m] for the items that pass [keep]. *)
Lemma fold_guarded_setdefault (A : Type) (keep : A -> bool) (key : A -> text)
    (ms : list A) :
  forall seen,
    fold_left (fun seen m => if keep m then setdefault seen (key m) else seen) ms seen =
    fold_left setdefault (map key (filter keep ms)) seen.
Proof.
  induction ms as [|m ms IH]; intros seen; simpl; [reflexivity|].
  destruct (keep m); simpl; apply IH.
Qed.

Lemma fold_keyed_setdefault (A : Type) (key : A -> text) (ms : list A) :
  forall seen,
    fold_left (fun seen m => setdefault seen (key m)) ms seen =
    fold_left setdefault (map key ms) seen.
Proof.
  induction ms as [|m ms IH]; intros seen; simpl; [reflexivity|apply IH].
Qed.

End DictFacts.

(** * The extractor *)

Section ExtractorFacts.

Variable U : ucd.
Variable s : text.

Lemma extract_as_fold (mk : market) :
  _extract_stock_codes U s mk =
  fold_left setdefault
    (astock_tokens U s ++ hkstock_tokens U s mk ++ usstock_tokens U s mk) [].
Proof.
  unfold _extract_stock_codes, astock_tokens, hkstock_tokens, usstock_tokens.
  rewrite !fold_left_app.
  unfold astock_step, usstock_step, hkstock_step.
  rewrite (fold_guarded_setdefault (fun m => first_ok (group_code s m)) (group_code s)).
  destruct (in_hk_scope mk), (in_us_scope mk); simpl;
    rewrite ?(fold_guarded_setdefault
                (fun m => search U (context_of s m) price_or_pct) (group0 s));
    rewrite ?(fold_keyed_setdefault (fun m => upper (group0 s m))); reflexivity.
Qed.

(** The group of every match of [_ASTOCK_FULL] is six decimal digits, the
    first of them one of 0, 1, 2, 3, 6. *)
Lemma astock_code_shape (m : rmatch) :
  In m (finditer U s _ASTOCK_FULL) ->
  exists c rest, group_code s m = c :: rest /\ List.length rest = 5 /\
    N_eqb_in c (py "03612") = true /\ all_decimal U rest.
Proof.
  intros H. apply finditer_sound in H. destruct H as [_ H].
  apply matches_astock in H. destruct H as (a & c & Hg & Hc & Hok & Hd).
  unfold group_code. rewrite Hg.
  exists c, (slice s (S a) (a + 6)).
  split; [apply slice_cons; [exact Hc|lia]|].
  split; [|split; [exact Hok|apply slice_Forall; exact Hd]].
  rewrite (span_in_slice_length Hd); lia.
Qed.

Lemma allowed_first_ok (c : char) (rest : text) :
  N_eqb_in c (py "03612") = true -> first_ok (c :: rest) = true.
Proof.
  unfold first_ok, _VALID_FIRST. simpl. intros H.
  repeat (apply orb_true_iff in H; destruct H as [H|H]);
    try discriminate; rewrite H; repeat rewrite orb_true_r; reflexivity.
Qed.

Lemma allowed_leading (c : char) (rest : text) :
  N_eqb_in c (py "03612") = true -> leading_allowed (c :: rest) = true.
Proof.
  simpl. intros H.
  repeat (apply orb_true_iff in H; destruct H as [H|H]);
    try discriminate; rewrite H; repeat rewrite orb_true_r; reflexivity.
Qed.

(** The test on the first digit never rejects a match. *)
Lemma astock_tokens_all :
  astock_tokens U s = map (group_code s) (finditer U s _ASTOCK_FULL).
Proof.
  unfold astock_tokens. f_equal.
  apply forallb_filter_id, forallb_forall. intros m Hm.
  destruct (astock_code_shape _ Hm) as (c & rest & -> & _ & Hok & _).
  apply allowed_first_ok, Hok.
Qed.

Lemma astock_token_shape (t : text) :
  In t (astock_tokens U s) ->
  List.length t = 6 /\ leading_allowed t = true /\ all_decimal U (tl t).
Proof.
  rewrite astock_tokens_all. intros H.
  apply in_map_iff in H. destruct H as (m & <- & Hm).
  destruct (astock_code_shape _ Hm) as (c & rest & -> & Hl & Hok & Hd).
  split; [simpl; lia|]. split; [apply allowed_leading, Hok|exact Hd].
Qed.

Lemma finditer_hk (m : rmatch) :
  In m (finditer U s _HKSTOCK_FULL) ->
  hk_token_at U s (m_start m) /\ m_end m = m_start m + 7 /\ m_code m = None.
Proof.
  intros H. apply finditer_sound in H. destruct H as [_ H].
  apply matches_hk in H. exact H.
Qed.

Lemma hk_token_bound (i : nat) : hk_token_at U s i -> i + 7 <= List.length s.
Proof.
  intros (_ & _ & _ & Hd & _). apply (span_in_bound Hd). lia.
Qed.

Lemma hkstock_token_shape (mk : market) (t : text) :
  In t (hkstock_tokens U s mk) -> List.length t = 7.
Proof.
  unfold hkstock_tokens. destruct (in_hk_scope mk); [|contradiction].
  intros H. apply in_map_iff in H. destruct H as (m & <- & Hm).
  apply finditer_hk in Hm. destruct Hm as (Ht & He & _).
  unfold upper, group0. rewrite length_map, He, slice_length.
  - lia.
  - apply hk_token_bound, Ht.
Qed.

Lemma finditer_us (m : rmatch) :
  In m (finditer U s _USSTOCK_FULL) ->
  ticker_at U s (m_start m) (m_end m) /\ m_code m = None.
Proof.
  intros H. apply finditer_sound in H. destruct H as [_ H].
  apply matches_us in H. exact H.
Qed.

Lemma ticker_shape (i j : nat) :
  ticker_at U s i j ->
  1 <= List.length (slice s i j) <= 5 /\ all_upper (slice s i j).
Proof.
  intros (_ & Hj & Hl & _). split.
  - rewrite (span_in_slice_length Hl); lia.
  - apply slice_Forall, Hl.
Qed.

Lemma usstock_token_shape (mk : market) (t : text) :
  In t (usstock_tokens U s mk) -> 1 <= List.length t <= 5 /\ all_upper t.
Proof.
  unfold usstock_tokens. destruct (in_us_scope mk); [|contradiction].
  intros H. apply in_map_iff in H. destruct H as (m & <- & Hm).
  apply filter_In in Hm. destruct Hm as [Hm _].
  apply finditer_us in Hm. destruct Hm as [Hm _].
  apply ticker_shape, Hm.
Qed.

(** The three loops insert keys of different lengths, so the output is the
    three lists of first occurrences one after the other. *)
Lemma extract_by_category (mk : market) :
  _extract_stock_codes U s mk =
  first_occurrences (astock_tokens U s) ++
  first_occurrences (hkstock_tokens U s mk) ++
  first_occurrences (usstock_tokens U s mk).
Proof.
  rewrite extract_as_fold, fold_setdefault_nil.
  rewrite first_occurrences_app, first_occurrences_app; [reflexivity| |].
  - intros y Hh Hu. apply hkstock_token_shape in Hh.
    apply usstock_token_shape in Hu. lia.
  - intros y Ha Hx. apply astock_token_shape in Ha.
    apply in_app_or in Hx. destruct Hx as [Hh|Hu].
    + apply hkstock_token_shape in Hh. lia.
    + apply usstock_token_shape in Hu. lia.
Qed.

Lemma extract_In (mk : market) (t : text) :
  In t (_extract_stock_codes U s mk) <->
  In t (astock_tokens U s) \/ In t (hkstock_tokens U s mk) \/ In t (usstock_tokens U s mk).
Proof.
  rewrite extract_as_fold, fold_setdefault_nil, first_occurrences_In, !in_app_iff.
  reflexivity.
Qed.

Lemma extract_NoDup (mk : market) : NoDup (_extract_stock_codes U s mk).
Proof.
  rewrite extract_as_fold, fold_setdefault_nil. apply first_occurrences_NoDup.
Qed.

End ExtractorFacts.


(** * Independence of the rest of the character database

    The extractor consults the database only at the characters of the text:
    two databases that agree there give the same output. *)

Section Agreement.

Variables U V : ucd.
Variable s : text.
Hypothesis HUV : agree_on U V s.

Lemma agree_at (i : nat) (c : char) :
  nth_error s i = Some c ->
  isdecimal U c = isdecimal V c /\ isalnum U c = isalnum V c.
Proof.
  intros H. apply nth_error_In in H.
  unfold agree_on in HUV. rewrite Forall_forall in HUV. apply HUV, H.
Qed.

Lemma in_class_agree (cl : cclass) (i : nat) (c : char) :
  nth_error s i = Some c -> in_class U cl c = in_class V cl c.
Proof.
  intros H. apply agree_at in H. destruct H as [Hd _].
  induction cl as [a|a|lo hi| |a IHa b IHb]; simpl; try reflexivity.
  - exact Hd.
  - rewrite IHa, IHb. reflexivity.
Qed.

Lemma word_at_agree (i : nat) : word_at U s i = word_at V s i.
Proof.
  unfold word_at. destruct (nth_error s i) as [c|] eqn:Hc; [|reflexivity].
  apply agree_at in Hc. destruct Hc as [_ Ha]. unfold is_word. rewrite Ha. reflexivity.
Qed.

Lemma boundary_agree (i : nat) : boundary U s i = boundary V s i.
Proof.
  unfold boundary. rewrite word_at_agree. destruct i; [reflexivity|].
  rewrite word_at_agree. reflexivity.
Qed.

Lemma rep_loop_agree (body body' : nat -> grp -> cont -> option rmatch) (k k' : cont) :
  (forall i g h h', (forall j g', h j g' = h' j g') -> body i g h = body' i g h') ->
  (forall j g', k j g' = k' j g') ->
  forall hi lo i g, rep_loop body k lo hi i g = rep_loop body' k' lo hi i g.
Proof.
  intros Hb Hk hi. induction hi as [|hi IH]; intros lo i g; simpl.
  - destruct lo; [apply Hk|reflexivity].
  - rewrite (Hb i g _ (fun j g' => rep_loop body' k' (pred lo) hi j g')).
    + rewrite Hk. reflexivity.
    + intros j g'. apply IH.
Qed.

Lemma try_match_agree (r : regex) :
  forall i g k k', (forall j g', k j g' = k' j g') ->
    try_match U s r i g k = try_match V s r i g k'.
Proof.
  induction r as [cl| |r1 IH1 r2 IH2|r1 IH1 r2 IH2|r1 IH1|lo hi r1 IH1|r1 IH1];
    intros i g k k' Hk; simpl.
  - destruct (nth_error s i) as [c|] eqn:Hc; [|reflexivity].
    rewrite (in_class_agree cl _ Hc), Hk. reflexivity.
  - rewrite boundary_agree, Hk. reflexivity.
  - apply IH1. intros j g'. apply IH2, Hk.
  - rewrite (IH1 i g k k' Hk), (IH2 i g k k' Hk). reflexivity.
  - rewrite (IH1 i g k k' Hk), Hk. reflexivity.
  - apply rep_loop_agree; [exact IH1|exact Hk].
  - apply IH1. intros j g'. apply Hk.
Qed.

Lemma finditer_agree (r : regex) : finditer U s r = finditer V s r.
Proof.
  unfold finditer. generalize 0 at 2 4. generalize (seq 0 (S (List.length s))).
  intros starts. induction starts as [|i rest IH]; intros resume; simpl; [reflexivity|].
  unfold match_at. rewrite (try_match_agree r i None _ _ (fun _ _ => eq_refl)).
  rewrite IH. destruct (try_match V s r i None _) as [m|]; rewrite ?IH; reflexivity.
Qed.

End Agreement.

Lemma slice_In (s : text) (a b : nat) (c : char) : In c (slice s a b) -> In c s.
Proof.
  intros H. apply In_nth_error in H. destruct H as [k Hk].
  rewrite slice_nth in Hk. destruct (k <? b - a); [|discriminate].
  eapply nth_error_In, Hk.
Qed.

Lemma agree_on_slice (U V : ucd) (s : text) (a b : nat) :
  agree_on U V s -> agree_on U V (slice s a b).
Proof.
  unfold agree_on. rewrite !Forall_forall. intros H c Hc. apply H.
  eapply slice_In, Hc.
Qed.

Lemma fold_left_pointwise (A B : Type) (f g : A -> B -> A) (l : list B) :
  (forall a b, f a b = g a b) -> forall a, fold_left f l a = fold_left g l a.
Proof.
  intros H. induction l as [|b l IH]; intros a; simpl; [reflexivity|].
  rewrite H. apply IH.
Qed.

Lemma extract_agree (U V : ucd) (s : text) (mk : market) :
  agree_on U V s -> _extract_stock_codes U s mk = _extract_stock_codes V s mk.
Proof.
  intros H. unfold _extract_stock_codes.
  rewrite !(finditer_agree H).
  destruct (in_hk_scope mk), (in_us_scope mk); try reflexivity;
    apply fold_left_pointwise; intros seen m; unfold usstock_step, search, context_of;
    rewrite (finditer_agree (agree_on_slice _ _ H)); reflexivity.
Qed.

Lemma is_ascii_check (s : text) :
  forallb (fun c => (c <? 128)%N) s = true -> is_ascii s.
Proof.
  intros H. apply Forall_forall. intros c Hc.
  rewrite forallb_forall in H. apply N.ltb_lt, H, Hc.
Qed.

Lemma ascii_agree (U : ucd) (s : text) :
  ascii_faithful U -> is_ascii s -> agree_on U ascii_ucd s.
Proof.
  intros HU Hs. unfold agree_on, is_ascii in *.
  rewrite Forall_forall in *. intros c Hc. apply HU, Hs, Hc.
Qed.

(** On an ASCII text every database that is faithful on ASCII gives the
    output of [ascii_ucd]. *)
Lemma extract_ascii (U : ucd) (s : text) (mk : market) :
  ascii_faithful U -> forallb (fun c => (c <? 128)%N) s = true ->
  _extract_stock_codes U s mk = _extract_stock_codes ascii_ucd s mk.
Proof.
  intros HU Hs. apply extract_agree, ascii_agree; [exact HU|].
  apply is_ascii_check, Hs.
Qed.

Lemma ascii_ucd_faithful : ascii_faithful ascii_ucd.
Proof. intros c _. split; reflexivity. Qed.

(** * Order of the matches *)

Lemma scan_sorted (U : ucd) (s : text) (r : regex) (starts : list nat) :
  forall resume, StronglySorted before (scan U s r starts resume).
Proof.
  induction starts as [|i rest IH]; intros resume; simpl; [constructor|].
  destruct (i <? resume); [apply IH|].
  destruct (match_at U s r i) as [m|] eqn:Hm; [|apply IH].
  constructor; [apply IH|].
  apply Forall_forall. intros m' Hm'. apply scan_sound in Hm'.
  unfold before. tauto.
Qed.

Lemma finditer_sorted (U : ucd) (s : text) (r : regex) :
  StronglySorted before (finditer U s r).
Proof. apply scan_sorted. Qed.

(** * The claims on the extractor *)

(** C1: whatever the text and the market scope, a token of six digits in the
    output of the extractor begins with one of 0, 1, 2, 3, 6; it is a token
    of the domestic pattern, its other five characters are decimal digits,
    and it is never [400001]. *)
Theorem six_digit_token_leading_digit (U : ucd) (s : text) (mk : market) (t : text) :
  In t (_extract_stock_codes U s mk) ->
  List.length t = 6 ->
  leading_allowed t = true /\ all_decimal U (tl t) /\
  In t (astock_tokens U s) /\ t <> py "400001".
Proof.
  intros Hin Hlen. apply extract_In in Hin.
  assert (Ha : In t (astock_tokens U s)).
  { destruct Hin as [Ha|[Hh|Hu]]; [exact Ha| |].
    - apply hkstock_token_shape in Hh. lia.
    - apply usstock_token_shape in Hu. lia. }
  destruct (astock_token_shape _ _ _ Ha) as (_ & Hl & Hd).
  repeat split; auto.
  intros ->. discriminate Hl.
Qed.

Lemma six_digit_token_leading_digit_witness :
  leading_allowed (py "600519") = true /\ all_decimal ascii_ucd (tl (py "600519")) /\
  In (py "600519") (astock_tokens ascii_ucd (py "buy 600519, not 400001 or HK00700")) /\
  py "600519" <> py "400001".
Proof.
  apply (@six_digit_token_leading_digit ascii_ucd
           (py "buy 600519, not 400001 or HK00700") mixed (py "600519")).
  - vm_compute. left. reflexivity.
  - reflexivity.
Defined.

(** C2: the output of the extractor has no duplicates; an insertion of a key
    that is present changes nothing; the output is the first occurrences of
    the domestic tokens, then those of the overseas tokens, then those of the
    tickers, each list in the order of the matches, which [finditer] yields
    from left to right.  On the text [600519, 000001, 300750] with scope cn
    the output is exactly these three codes in this order. *)
Theorem extract_ordered_set (U : ucd) (s : text) (mk : market) :
  NoDup (_extract_stock_codes U s mk) /\
  (forall seen k, In k seen -> setdefault seen k = seen) /\
  _extract_stock_codes U s mk =
    first_occurrences (map (group_code s) (finditer U s _ASTOCK_FULL)) ++
    first_occurrences (hkstock_tokens U s mk) ++
    first_occurrences (usstock_tokens U s mk) /\
  (forall r, StronglySorted before (finditer U s r)) /\
  (ascii_faithful U ->
   _extract_stock_codes U (py "600519, 000001, 300750") cn =
   [py "600519"; py "000001"; py "300750"]).
Proof.
  split; [apply extract_NoDup|].
  split; [apply setdefault_present|].
  split; [rewrite <- astock_tokens_all; apply extract_by_category|].
  split; [intros r; apply finditer_sorted|].
  intros HU. rewrite (extract_ascii _ cn HU); reflexivity.
Qed.

(** * Completeness of the scan *)

Section ScanFacts.

Variable U : ucd.
Variable s : text.

(** The scan returns the match at [i] when no match that starts earlier
    extends beyond [i]. *)
Lemma scan_finds (r : regex) (i : nat) (m : rmatch) :
  match_at U s r i = Some m ->
  (forall i' m', i' < i -> match_at U s r i' = Some m' -> m_end m' <= i) ->
  forall n a resume, a <= i < a + n -> resume <= i ->
    In m (scan U s r (seq a n) resume).
Proof.
  intros Hm Hfree n. induction n as [|n IH]; intros a resume Ha Hr; [lia|].
  simpl. destruct (Nat.eq_dec a i) as [->|Hne].
  - replace (i <? resume) with false by (symmetry; apply Nat.ltb_ge; exact Hr).
    rewrite Hm. left. reflexivity.
  - destruct (a <? resume); [apply IH; lia|].
    destruct (match_at U s r a) as [m0|] eqn:H0.
    + right. apply IH; [lia|]. apply (Hfree a); [lia|exact H0].
    + apply IH; lia.
Qed.

Lemma finditer_finds (r : regex) (i : nat) (m : rmatch) :
  i <= List.length s ->
  match_at U s r i = Some m ->
  (forall i' m', i' < i -> match_at U s r i' = Some m' -> m_end m' <= i) ->
  In m (finditer U s r).
Proof.
  intros Hi Hm Hfree. unfold finditer. apply scan_finds with (i := i); auto; lia.
Qed.

(** [search] of a single character class looks for a character of the class. *)
Lemma search_cls (cl : cclass) : search U s (Cls cl) = existsb (in_class U cl) s.
Proof.
  unfold search. destruct (existsb (in_class U cl) s) eqn:He.
  - apply existsb_exists in He. destruct He as (c & Hc & Hcl).
    apply In_nth_error in Hc. destruct Hc as [i Hi].
    assert (Hm : exists m, match_at U s (Cls cl) i = Some m).
    { apply match_at_complete with (j := S i) (g' := None). simpl. eauto. }
    destruct Hm as [m Hm].
    assert (Hin : In m (finditer U s (Cls cl))).
    { apply finditer_finds with (i := i); auto.
      - apply Nat.lt_le_incl, nth_error_Some. congruence.
      - intros i' m' Hlt Hm'. apply match_at_sound in Hm'.
        destruct Hm' as [_ Hm']. apply matches_cls in Hm'. lia. }
    destruct (finditer U s (Cls cl)); [contradiction|reflexivity].
  - destruct (finditer U s (Cls cl)) as [|m l] eqn:Hf; [reflexivity|].
    assert (Hin : In m (finditer U s (Cls cl))) by (rewrite Hf; left; reflexivity).
    apply finditer_sound in Hin. destruct Hin as [_ Hin].
    apply matches_cls in Hin. destruct Hin as (_ & _ & c & Hc & Hcl).
    assert (existsb (in_class U cl) s = true).
    { apply existsb_exists. exists c. split; [eapply nth_error_In; eauto|exact Hcl]. }
    congruence.
Qed.

End ScanFacts.

(** * Every token of the overseas and ticker patterns is found *)

Section TokensFound.

Variable U : ucd.
Variable s : text.
Hypothesis HU : ascii_faithful U.

Lemma upper_is_word (c : char) : ascii_upper c = true -> is_word U c = true.
Proof.
  intros H. unfold is_word. destruct (@HU c) as [_ Ha].
  - unfold ascii_upper in H. apply andb_true_iff in H. destruct H as [_ H].
    apply N.leb_le in H. lia.
  - rewrite Ha. simpl. rewrite H. rewrite orb_true_r. reflexivity.
Qed.

Lemma span_upper_word (a b k : nat) :
  span_in s ascii_upper a b -> a <= k < b -> word_at U s k = true.
Proof.
  intros H Hk. destruct (H k Hk) as (c & Hc & Hup).
  unfold word_at. rewrite Hc. apply upper_is_word, Hup.
Qed.

Lemma boundary_inside (k : nat) :
  word_at U s k = true -> word_at U s (S k) = true -> boundary U s (S k) = false.
Proof.
  intros H1 H2. unfold boundary. rewrite H1, H2. reflexivity.
Qed.

(** Two tickers that start at different places do not overlap. *)
Lemma ticker_no_overlap (i' e' i j : nat) :
  ticker_at U s i' e' -> ticker_at U s i j -> i' < i -> e' <= i.
Proof.
  intros (_ & _ & Hl' & _) (Hb & _ & Hl & _) Hlt.
  destruct (Nat.le_gt_cases e' i) as [Hle|Hgt]; [exact Hle|exfalso].
  destruct i as [|k]; [lia|].
  rewrite boundary_inside in Hb; [discriminate| |].
  - apply (span_upper_word Hl'). lia.
  - apply (span_upper_word Hl'). lia.
Qed.

Lemma ticker_end_le (i j j' : nat) :
  ticker_at U s i j -> ticker_at U s i j' -> j <= j'.
Proof.
  intros (_ & Hj & Hl & _) (_ & Hj' & Hl' & He').
  destruct (Nat.le_gt_cases j j') as [Hle|Hgt]; [exact Hle|exfalso].
  destruct j' as [|k]; [lia|].
  rewrite boundary_inside in He'; [discriminate| |].
  - apply (span_upper_word Hl'). lia.
  - apply (span_upper_word Hl). lia.
Qed.

Lemma ticker_found (i j : nat) :
  ticker_at U s i j ->
  exists m, In m (finditer U s _USSTOCK_FULL) /\ m_start m = i /\ m_end m = j.
Proof.
  intros Ht.
  assert (Hm : exists m, match_at U s _USSTOCK_FULL i = Some m).
  { apply match_at_complete with (j := j) (g' := None). apply matches_us. auto. }
  destruct Hm as [m Hm]. exists m.
  pose proof (match_at_sound _ _ _ _ Hm) as [Hs Hmm].
  apply matches_us in Hmm. destruct Hmm as [Ht' _].
  assert (Hend : m_end m = j).
  { apply Nat.le_antisymm; eapply ticker_end_le; eauto. }
  split; [|auto].
  apply finditer_finds with (i := i); auto.
  - destruct Ht as (_ & Hj & Hl & _).
    pose proof (span_in_bound Hl). lia.
  - intros i' m' Hlt Hm'. apply match_at_sound in Hm'. destruct Hm' as [_ Hm'].
    apply matches_us in Hm'. destruct Hm' as [Hm' _].
    eapply ticker_no_overlap; eauto.
Qed.

Lemma letter_H (c : char) :
  in_class U (LitI (ch "H")) c = true -> c = 72%N \/ c = 104%N.
Proof.
  simpl. unfold ch, upper_char, lower_char. simpl. rewrite orb_false_r.
  intros H. apply orb_true_iff in H. destruct H as [H|H]; apply N.eqb_eq in H; auto.
Qed.

Lemma letter_K (c : char) :
  in_class U (LitI (ch "K")) c = true -> c = 75%N \/ c = 107%N \/ c = 8490%N.
Proof.
  simpl. unfold ch, upper_char, lower_char. simpl. rewrite orb_false_r.
  intros H. repeat (apply orb_true_iff in H; destruct H as [H|H]);
    apply N.eqb_eq in H; auto.
Qed.




End TokensFound.

(** * The claims on the ticker and overseas patterns *)

Lemma existsb_pointwise (A : Type) (f g : A -> bool) (l : list A) :
  (forall a, f a = g a) -> existsb f l = existsb g l.
Proof.
  intros H. induction l as [|a l IH]; simpl; [reflexivity|].
  rewrite H, IH. reflexivity.
Qed.

Lemma search_price_or_pct (U : ucd) (ctx : text) :
  search U ctx price_or_pct = existsb (is_marker U) ctx.
Proof.
  unfold price_or_pct. rewrite search_cls.
  apply existsb_pointwise. intros c. unfold is_marker, ch. simpl.
  rewrite !orb_assoc. reflexivity.
Qed.

(** C3: with scope us or mixed, a string of at most five characters is in
    the output exactly when the text holds a word-bounded token of one to
    five capital letters that spells it and whose window, twenty characters
    to each side, holds a dollar, yen or fullwidth yen sign, a percent sign
    or a digit.  Under scope us, [AAPL rose 3%] yields AAPL and
    [AAPL is great] does not. *)
Theorem ticker_kept_iff_marker_near (U : ucd) (s : text) (mk : market) (t : text) :
  ascii_faithful U ->
  in_us_scope mk = true ->
  ((In t (_extract_stock_codes U s mk) /\ List.length t <= 5) <->
   (exists i j, ticker_at U s i j /\ slice s i j = t /\ marker_near U s i j = true)) /\
  In (py "AAPL") (_extract_stock_codes U (py "AAPL rose 3%") us) /\
  ~ In (py "AAPL") (_extract_stock_codes U (py "AAPL is great") us).
Proof.
  intros HU Hmk. split; [split|split].
  - intros [Hin Hlen]. apply extract_In in Hin.
    destruct Hin as [Ha|[Hh|Hu]].
    + apply astock_token_shape in Ha. lia.
    + apply hkstock_token_shape in Hh. lia.
    + unfold usstock_tokens in Hu. rewrite Hmk in Hu.
      apply in_map_iff in Hu. destruct Hu as (m & Hg & Hm).
      apply filter_In in Hm. destruct Hm as [Hm Hs].
      apply finditer_us in Hm. destruct Hm as [Hm _].
      exists (m_start m), (m_end m). split; [exact Hm|]. split; [exact Hg|].
      rewrite search_price_or_pct in Hs. exact Hs.
  - intros (i & j & Ht & Hg & Hn).
    split; [|destruct (ticker_shape Ht) as [Hl _]; rewrite Hg in Hl; lia].
    apply extract_In. right. right.
    unfold usstock_tokens. rewrite Hmk.
    destruct (ticker_found HU Ht) as (m & Hm & Hs & He).
    apply in_map_iff. exists m. split.
    + unfold group0. rewrite Hs, He. exact Hg.
    + apply filter_In. split; [exact Hm|].
      rewrite search_price_or_pct. unfold context_of. rewrite Hs, He. exact Hn.
  - rewrite (extract_ascii _ us HU); [|reflexivity]. vm_compute. auto.
  - rewrite (extract_ascii _ us HU); [|reflexivity]. vm_compute. auto.
Qed.

Lemma ticker_kept_iff_marker_near_witness :
  ((In (py "AAPL") (_extract_stock_codes ascii_ucd (py "AAPL rose 3%") us) /\
    List.length (py "AAPL") <= 5) <->
   (exists i j, ticker_at ascii_ucd (py "AAPL rose 3%") i j /\
      slice (py "AAPL rose 3%") i j = py "AAPL" /\
      marker_near ascii_ucd (py "AAPL rose 3%") i j = true)) /\
  In (py "AAPL") (_extract_stock_codes ascii_ucd (py "AAPL rose 3%") us) /\
  ~ In (py "AAPL") (_extract_stock_codes ascii_ucd (py "AAPL is great") us).
Proof.
  apply (@ticker_kept_iff_marker_near ascii_ucd (py "AAPL rose 3%") us (py "AAPL")).
  - exact ascii_ucd_faithful.
  - reflexivity.
Defined.




(** * The program *)

Section ProgramFacts.

Variable U : ucd.
Variable build : list text -> build_outcome.
Variable a : args.

Lemma run_build_failure (exc : text) :
  build [args_strategy a] = Raises exc ->
  fst (run_program U build a) = 1%Z /\
  stdout (snd (run_program U build a)) = [] /\
  calls (snd (run_program U build a)) = [CallBuild [args_strategy a]].
Proof.
  intros Hb. unfold run_program, main, bind, logger, called, ret. simpl.
  rewrite Hb. simpl. auto.
Qed.

Lemma run_executor_failure (ex : executor) :
  build [args_strategy a] = Returns ex ->
  success (result_of a ex) = false ->
  fst (run_program U build a) = 1%Z /\
  stdout (snd (run_program U build a)) = [newline] /\
  calls (snd (run_program U build a)) =
    [CallBuild [args_strategy a]; CallRun (_build_selection_prompt (args_max_stocks a))].
Proof.
  intros Hb Hs. unfold result_of in Hs.
  unfold run_program, main, bind, logger, called, print, ret. simpl.
  rewrite Hb. simpl. rewrite Hs. simpl. auto.
Qed.

Lemma run_success (ex : executor) :
  build [args_strategy a] = Returns ex ->
  success (result_of a ex) = true ->
  fst (run_program U build a) = 0%Z /\
  stdout (snd (run_program U build a)) = join (py ",") (kept_codes U a ex) ++ [newline] /\
  calls (snd (run_program U build a)) =
    [CallBuild [args_strategy a]; CallRun (_build_selection_prompt (args_max_stocks a))].
Proof.
  intros Hb Hs. unfold kept_codes, result_of in *.
  unfold run_program, main, bind, logger, called, print, write_text, ret. simpl.
  rewrite Hb. simpl. rewrite Hs. simpl.
  destruct (given (args_report a)); simpl;
    destruct (slice_to _ _) as [|c cs]; simpl; auto;
    destruct (given (args_output a)); simpl; auto.
Qed.

End ProgramFacts.




(** ** The printed line *)

Section PrintedLine.

Variable U : ucd.
Hypothesis HU : ascii_faithful U.






Lemma join_cons (sep x y : text) (l : list text) :
  join sep (x :: y :: l) = x ++ sep ++ join sep (y :: l).
Proof. reflexivity. Qed.


Lemma firstn_In (A : Type) (n : nat) (l : list A) (x : A) :
  In x (firstn n l) -> In x l.
Proof.
  intros H. rewrite <- (firstn_skipn n l). apply in_or_app. left. exact H.
Qed.

Lemma slice_to_In (A : Type) (l : list A) (n : Z) (x : A) :
  In x (slice_to l n) -> In x l.
Proof.
  unfold slice_to. destruct (n <? 0)%Z; apply firstn_In.
Qed.


End PrintedLine.

(** * The claims on the program *)





(** On the runs where every call returns, [main] returns 1 exactly when the
    construction of the executor raises or the result of the run reports a
    failure, and 0 otherwise; the factory is called once and the executor at
    most once. *)
Lemma exit_status_cases (U : ucd) (build : list text -> build_outcome) (a : args) :
  (fst (run_program U build a) = 1%Z <-> build_failed build a \/ run_failed build a) /\
  (fst (run_program U build a) = 0%Z <->
   ~ (build_failed build a \/ run_failed build a)) /\
  List.length (filter is_build (calls (snd (run_program U build a)))) = 1 /\
  List.length (filter is_run (calls (snd (run_program U build a)))) <= 1.
Proof.
  unfold build_failed, run_failed.
  destruct (build [args_strategy a]) as [exc|ex] eqn:Hb.
  - destruct (@run_build_failure U build a exc Hb) as (H1 & _ & Hc).
    rewrite H1, Hc. simpl. repeat split; try lia; eauto.
    intros H. exfalso. apply H. eauto.
  - destruct (success (result_of a ex)) eqn:Hs.
    + destruct (@run_success U build a ex Hb Hs) as (H0 & _ & Hc).
      rewrite H0, Hc. simpl. repeat split; try lia; try discriminate.
      * intros [[exc He]|(ex' & He & Hf)]; [discriminate|].
        injection He as <-. congruence.
      * intros _ [[exc He]|(ex' & He & Hf)]; [discriminate|].
        injection He as <-. congruence.
    + destruct (@run_executor_failure U build a ex Hb Hs) as (H1 & _ & Hc).
      rewrite H1, Hc. simpl. repeat split; try lia; eauto.
      intros H. exfalso. apply H. eauto.
Qed.

(** C8, on the path where the construction of the executor raises: the
    program returns 1 and has printed nothing, which is not one line, whereas
    the other failure path prints an empty line before it returns 1.  On
    every path where the executor was built one line is printed
    ([built_prints_one_line]). *)
Theorem build_failure_prints_nothing (U : ucd) (a : args) (exc e : text) :
  stdout (snd (run_program U (fun _ => Raises exc) a)) = [] /\
  ~ one_line (stdout (snd (run_program U (fun _ => Raises exc) a))) /\
  fst (run_program U (fun _ => Raises exc) a) = 1%Z /\
  stdout (snd (run_program U (fun _ => Returns (failing e)) a)) = [newline] /\
  fst (run_program U (fun _ => Returns (failing e)) a) = 1%Z.
Proof.
  destruct (@run_build_failure U (fun _ => Raises exc) a exc eq_refl) as (H1 & Ho & _).
  destruct (@run_executor_failure U (fun _ => Returns (failing e)) a (failing e)
              eq_refl eq_refl) as (H1' & Ho' & _).
  repeat split; auto.
  rewrite Ho. intros (line & Hl & _). destruct line; discriminate.
Qed.




(** * Further properties of the extractor *)

Lemma allowed_digit (c : char) :
  N_eqb_in c (py "03612") = true <->
  c = 48%N \/ c = 51%N \/ c = 54%N \/ c = 49%N \/ c = 50%N.
Proof.
  unfold N_eqb_in. change (py "03612") with [48; 51; 54; 49; 50]%N.
  rewrite existsb_exists. split.
  - intros (x & Hin & He). apply N.eqb_eq in He. subst x.
    simpl in Hin. intuition.
  - intros H. exists c. split; [simpl; intuition|apply N.eqb_refl].
Qed.

Section DomesticFacts.

Variable U : ucd.
Variable s : text.

Lemma matches_sh_or_sz (i j : nat) (g g' : grp) :
  matches U s SH_or_SZ i g j g' <-> sh_or_sz_at U s i /\ j = i + 2 /\ g' = g.
Proof.
  unfold SH_or_SZ, sh_or_sz_at, char_at. split.
  - intros [H|H];
      apply matches_seq in H; destruct H as (j1 & g1 & H1 & H2);
      apply matches_cls in H1; destruct H1 as (-> & -> & H1);
      apply matches_cls in H2; destruct H2 as (-> & -> & H2);
      replace (i + 1) with (S i) by lia; repeat split; auto; lia.
  - intros ((Hs & Hhz) & -> & ->). replace (i + 1) with (S i) in Hhz by lia.
    replace (i + 2) with (S (S i)) by lia.
    destruct Hs as (c & Hc & Hcl).
    destruct Hhz as [(c' & Hc' & Hcl')|(c' & Hc' & Hcl')]; [left|right];
      apply matches_seq; exists (S i), g;
      (split; [exists c; auto|exists c'; auto]).
Qed.

Lemma matches_code (i j : nat) (g g' : grp) :
  matches U s
    (Alt (Seq (Cls (Union (Lit (ch "0")) (Union (Lit (ch "3")) (Lit (ch "6")))))
              (Rep 5 5 (Cls Digit)))
         (Seq (Cls (Union (Lit (ch "1")) (Lit (ch "2")))) (Rep 5 5 (Cls Digit))))
    i g j g' <->
  code_at U s i /\ j = i + 6 /\ g' = g.
Proof.
  unfold code_at. split.
  - intros [H|H];
      apply matches_seq in H; destruct H as (j1 & g1 & Hc & Hd);
      apply matches_cls in Hc; destruct Hc as (-> & -> & c & Hc & Hcl);
      apply matches_rep_cls in Hd; destruct Hd as (Hj & -> & Hd);
      assert (j = i + 6) as -> by lia;
      (split; [split; [exists c; split; [exact Hc|]|exact Hd]|auto]);
      simpl in Hcl |- *; unfold ch in Hcl; simpl in Hcl;
      repeat (apply orb_true_iff in Hcl; destruct Hcl as [Hcl|Hcl]);
      rewrite Hcl; repeat rewrite orb_true_r; reflexivity.
  - intros (((c & Hc & Hok) & Hd) & -> & ->).
    assert (Hrep : matches U s (Rep 5 5 (Cls Digit)) (S i) g (i + 6) g).
    { exists 5. split; [lia|]. replace (i + 6) with (S i + 5) by lia.
      apply span_rep_cls. replace (S i + 5) with (i + 6) by lia. exact Hd. }
    apply allowed_digit in Hok.
    destruct Hok as [->|[->|[->|[->| ->]]]]; [left|left|left|right|right];
      apply matches_seq; exists (S i), g;
      (split; [eexists; repeat split; [exact Hc|reflexivity]|exact Hrep]).
Qed.

Lemma matches_opt (r : regex) (i j : nat) (g g' : grp) :
  matches U s (Opt r) i g j g' <-> matches U s r i g j g' \/ (j = i /\ g' = g).
Proof. reflexivity. Qed.

Lemma matches_grp (r : regex) (i j : nat) (g g' : grp) :
  matches U s (Grp r) i g j g' <->
  exists g0, matches U s r i g j g0 /\ g' = Some (i, j).
Proof. reflexivity. Qed.

(** What [_ASTOCK_FULL] matches, and where its group lies. *)
Lemma matches_astock_iff (i j : nat) (g g' : grp) :
  matches U s _ASTOCK_FULL i g j g' <->
  exists a, astock_at U s i a j /\ g' = Some (a, a + 6).
Proof.
  unfold _ASTOCK_FULL, astock_at. split.
  - intros H.
    apply matches_seq in H. destruct H as (j1 & g1 & Hb & H).
    apply matches_wordb in Hb. destruct Hb as (Hb & -> & ->).
    apply matches_seq in H. destruct H as (a & g2 & Hp & H).
    apply matches_seq in H. destruct H as (j3 & g3 & Hg & H).
    apply matches_seq in H. destruct H as (j4 & g4 & Hx & H).
    apply matches_wordb in H. destruct H as (He & -> & ->).
    apply matches_grp in Hg. destruct Hg as (g0 & Hg & ->).
    apply matches_code in Hg. destruct Hg as (Hc & -> & _).
    exists a. split.
    + split; [exact Hb|]. split.
      { apply matches_opt in Hp. destruct Hp as [Hp|[-> _]]; [|auto].
        apply matches_sh_or_sz in Hp. destruct Hp as (Hp & -> & _). auto. }
      split; [exact Hc|]. split; [|exact He].
      apply matches_opt in Hx. destruct Hx as [Hx|[-> _]]; [|auto].
      apply matches_seq in Hx. destruct Hx as (j5 & g5 & Hdot & Hx).
      apply matches_cls in Hdot. destruct Hdot as (-> & -> & Hdot).
      apply matches_sh_or_sz in Hx. destruct Hx as (Hx & -> & _).
      right. replace (a + 7) with (S (a + 6)) by lia.
      split; [lia|]. split; [exact Hdot|exact Hx].
    + apply matches_opt in Hx. destruct Hx as [Hx|[_ ->]]; [|reflexivity].
      apply matches_seq in Hx. destruct Hx as (j5 & g5 & Hdot & Hx).
      apply matches_cls in Hdot. destruct Hdot as (_ & -> & _).
      apply matches_sh_or_sz in Hx. destruct Hx as (_ & _ & ->). reflexivity.
  - intros (a & (Hb & Hp & Hc & Hx & He) & ->).
    apply matches_seq. exists i, g. split; [apply matches_wordb; auto|].
    apply matches_seq. exists a, g. split.
    { apply matches_opt. destruct Hp as [->|[-> Hp]]; [auto|].
      left. apply matches_sh_or_sz. auto. }
    apply matches_seq. exists (a + 6), (Some (a, a + 6)). split.
    { apply matches_grp. exists g. split; [|reflexivity].
      apply matches_code. auto. }
    apply matches_seq. exists j, (Some (a, a + 6)). split.
    { apply matches_opt. destruct Hx as [->|(-> & Hdot & Hx)]; [auto|].
      left. apply matches_seq. exists (S (a + 6)), (Some (a, a + 6)). split.
      - destruct Hdot as (c & Hc' & Hcl). exists c. auto.
      - apply matches_sh_or_sz. replace (S (a + 6)) with (a + 7) by lia.
        split; [exact Hx|split; [lia|reflexivity]]. }
    apply matches_wordb. auto.
Qed.

End DomesticFacts.

Section CoherentFacts.

Variable U : ucd.
Variable s : text.
Hypothesis HC : coherent U.

Lemma coherent_ascii : ascii_faithful U.
Proof. exact (proj1 HC). Qed.

Lemma ascii_digit_word (c : char) : ascii_digit c = true -> is_word U c = true.
Proof.
  intros H. unfold is_word. destruct (@coherent_ascii c) as [_ Ha].
  - unfold ascii_digit in H. apply andb_true_iff in H. destruct H as [_ H].
    apply N.leb_le in H. lia.
  - rewrite Ha. simpl. rewrite H. reflexivity.
Qed.

Lemma decimal_word (c : char) : isdecimal U c = true -> is_word U c = true.
Proof.
  intros H. unfold is_word. rewrite (proj2 HC c H). reflexivity.
Qed.

Lemma allowed_digit_ascii (c : char) :
  N_eqb_in c (py "03612") = true -> ascii_digit c = true.
Proof.
  intros H. apply allowed_digit in H.
  destruct H as [->|[->|[->|[->| ->]]]]; reflexivity.
Qed.

Lemma letter_Z (c : char) :
  in_class U (LitI (ch "Z")) c = true -> c = 90%N \/ c = 122%N.
Proof.
  simpl. unfold ch, upper_char, lower_char. simpl. rewrite orb_false_r.
  intros H. apply orb_true_iff in H. destruct H as [H|H]; apply N.eqb_eq in H; auto.
Qed.

Lemma letter_S (c : char) :
  in_class U (LitI (ch "S")) c = true -> c = 83%N \/ c = 115%N \/ c = 383%N.
Proof.
  simpl. unfold ch, upper_char, lower_char. simpl. rewrite orb_false_r.
  intros H. repeat (apply orb_true_iff in H; destruct H as [H|H]);
    apply N.eqb_eq in H; auto.
Qed.

(** The second letter of a marker is a letter of ASCII. *)
Lemma marker_second (i : nat) :
  sh_or_sz_at U s i ->
  exists c, nth_error s (i + 1) = Some c /\ ascii_digit c = false /\ is_word U c = true.
Proof.
  intros (_ & [(c & Hc & Hcl)|(c & Hc & Hcl)]); exists c; (split; [exact Hc|]).
  - apply letter_H in Hcl. destruct (@coherent_ascii c) as [_ Ha]; [lia|].
    unfold is_word. rewrite Ha. destruct Hcl as [->| ->]; split; reflexivity.
  - apply letter_Z in Hcl. destruct (@coherent_ascii c) as [_ Ha]; [lia|].
    unfold is_word. rewrite Ha. destruct Hcl as [->| ->]; split; reflexivity.
Qed.

(** The six characters of a code are word characters. *)
Lemma code_word (a k : nat) :
  code_at U s a -> a <= k < a + 6 -> word_at U s k = true.
Proof.
  intros ((c & Hc & Hok) & Hd) Hk. unfold word_at.
  destruct (Nat.eq_dec k a) as [->|Hne].
  - rewrite Hc. apply ascii_digit_word, allowed_digit_ascii, Hok.
  - destruct (Hd k) as (c' & Hc' & Hdec); [lia|].
    rewrite Hc'. apply decimal_word, Hdec.
Qed.

(** A character that is not a word character is not an ASCII digit. *)
Lemma not_word_not_digit (k : nat) (c : char) :
  word_at U s k = false -> nth_error s k = Some c -> ascii_digit c = false.
Proof.
  unfold word_at. intros H Hc. rewrite Hc in H.
  destruct (ascii_digit c) eqn:Hd; [|reflexivity].
  rewrite (ascii_digit_word _ Hd) in H. discriminate.
Qed.

Lemma boundary_after_word (k : nat) :
  boundary U s (S k) = true -> word_at U s k = true -> word_at U s (S k) = false.
Proof.
  unfold boundary. intros H Hw. rewrite Hw in H.
  destruct (word_at U s (S k)); [discriminate|reflexivity].
Qed.

Lemma boundary_before_word (k : nat) :
  boundary U s (S k) = true -> word_at U s (S k) = true -> word_at U s k = false.
Proof.
  unfold boundary. intros H Hw. rewrite Hw in H.
  destruct (word_at U s k); [discriminate|reflexivity].
Qed.

(** The code of a match is not cut out of a longer run of digits. *)
Lemma astock_not_in_digit_run (i a j : nat) :
  astock_at U s i a j ->
  (forall c, nth_error s (a + 6) = Some c -> ascii_digit c = false) /\
  (forall p c, a = S p -> nth_error s p = Some c -> ascii_digit c = false).
Proof.
  intros (Hb & Hp & Hc & Hx & He). split.
  - intros c Hn. destruct Hx as [->|(_ & (c' & Hc' & Hcl) & _)].
    + replace (a + 6) with (S (a + 5)) in * by lia.
      eapply not_word_not_digit; [|exact Hn].
      apply boundary_after_word; [exact He|].
      apply (code_word Hc). lia.
    + assert (c' = c) as -> by congruence.
      simpl in Hcl. apply N.eqb_eq in Hcl. subst c. reflexivity.
  - intros p c -> Hn. destruct Hp as [Hi|(Hi & Hm)].
    + subst i. eapply not_word_not_digit; [|exact Hn].
      apply boundary_before_word; [exact Hb|].
      apply (code_word Hc). lia.
    + destruct (marker_second Hm) as (c' & Hc' & Hnd & _).
      replace (i + 1) with p in Hc' by lia.
      assert (c' = c) as -> by congruence. exact Hnd.
Qed.

End CoherentFacts.

Section BareCode.

Variable U : ucd.
Variable s : text.
Hypothesis HC : coherent U.

(** The first digit of a code is neither a letter of a marker nor a dot. *)
Lemma code_first_not (cl : cclass) (a : nat) :
  code_at U s a -> char_at U s cl a ->
  In cl [LitI (ch "S"); LitI (ch "H"); LitI (ch "Z"); Lit (ch ".")] -> False.
Proof.
  intros ((c & Hc & Hok) & _) (c' & Hc' & Hcl) Hin.
  assert (c' = c) as -> by congruence.
  apply allowed_digit in Hok.
  destruct Hin as [<-|[<-|[<-|[<-|[]]]]];
    destruct Hok as [->|[->|[->|[->| ->]]]];
    vm_compute in Hcl; discriminate.
Qed.

(** No match that starts before a bare code extends into it. *)
Lemma bare_code_no_overlap (i' a' j' a : nat) :
  astock_at U s i' a' j' -> bare_code_at U s a -> i' < a -> j' <= a.
Proof.
  intros (Hb' & Hp' & Hc' & Hx' & He') (Hb & Hc & He) Hlt.
  destruct (Nat.le_gt_cases j' a) as [Hle|Hgt]; [exact Hle|exfalso].
  destruct a as [|p]; [lia|].
  assert (Hw : word_at U s p = false).
  { apply boundary_before_word; [exact Hb|]. apply (code_word HC Hc). lia. }
  assert (Hcase : S p < a' \/ S p = a' \/ a' < S p < a' + 6 \/
                  S p = a' + 6 \/ S p = a' + 7 \/ S p = a' + 8)
    by (destruct Hp' as [?|[? _]]; destruct Hx' as [?|[? _]]; lia).
  destruct Hcase as [H|[H|[H|[H|[H|H]]]]].
  - destruct Hp' as [?|[Ha' (_ & Hm)]]; [lia|].
    replace (i' + 1) with (S p) in Hm by lia.
    destruct Hm as [Hm|Hm]; eapply code_first_not; eauto; simpl; auto.
  - destruct Hp' as [?|[Ha' Hm]]; [lia|].
    destruct (marker_second HC Hm) as (c & Hcc & _ & Hcw).
    replace (i' + 1) with p in Hcc by lia.
    unfold word_at in Hw. rewrite Hcc in Hw. congruence.
  - rewrite (code_word HC Hc') in Hw; [discriminate|lia].
  - destruct Hx' as [?|(_ & Hdot & _)]; [lia|].
    rewrite <- H in Hdot. eapply code_first_not; eauto; simpl; auto.
  - destruct Hx' as [?|(_ & _ & Hm & _)]; [lia|].
    rewrite <- H in Hm. eapply code_first_not; eauto; simpl; auto.
  - destruct Hx' as [?|(_ & _ & _ & Hm)]; [lia|].
    replace (a' + 7 + 1) with (S p) in Hm by lia.
    destruct Hm as [Hm|Hm]; eapply code_first_not; eauto; simpl; auto.
Qed.

(** The scan returns, for a bare code, a match whose group is the code. *)
Lemma bare_code_found (a : nat) :
  bare_code_at U s a ->
  exists m, In m (finditer U s _ASTOCK_FULL) /\ m_code m = Some (a, a + 6).
Proof.
  intros Hbare. pose proof Hbare as (Hb & Hc & He).
  assert (Hm : exists m, match_at U s _ASTOCK_FULL a = Some m).
  { apply match_at_complete with (j := a + 6) (g' := Some (a, a + 6)).
    apply matches_astock_iff. exists a. split; [|reflexivity].
    unfold astock_at. auto 6. }
  destruct Hm as [m Hm]. exists m.
  pose proof (match_at_sound _ _ _ _ Hm) as [Hs Hmm].
  apply matches_astock_iff in Hmm. destruct Hmm as (a0 & Hat & Hg).
  assert (a0 = a) as ->.
  { destruct Hat as (_ & [?|[_ (Hs0 & _)]] & _); [auto|exfalso].
    eapply code_first_not; eauto; simpl; auto. }
  split; [|exact Hg].
  apply finditer_finds with (i := a); auto.
  - destruct Hc as [_ Hd]. pose proof (span_in_bound Hd). lia.
  - intros i' m' Hlt Hm'. apply match_at_sound in Hm'. destruct Hm' as [_ Hm'].
    apply matches_astock_iff in Hm'. destruct Hm' as (a' & Hat' & _).
    eapply bare_code_no_overlap; eauto.
Qed.

End BareCode.

(** X1: widening the scope only appends.  The output for cn is the beginning
    of the output for every scope; hk appends the overseas tokens, us the
    tickers, and mixed both, the overseas tokens first. *)
Theorem scope_only_appends (U : ucd) (s : text) :
  let H := first_occurrences (hkstock_tokens U s hk) in
  let T := first_occurrences (usstock_tokens U s us) in
  _extract_stock_codes U s hk = _extract_stock_codes U s cn ++ H /\
  _extract_stock_codes U s us = _extract_stock_codes U s cn ++ T /\
  _extract_stock_codes U s mixed = _extract_stock_codes U s cn ++ H ++ T /\
  (forall t, In t H -> List.length t = 7) /\
  (forall t, In t T -> List.length t <= 5).
Proof.
  intros H T. subst H T.
  rewrite !extract_by_category. simpl. rewrite !app_nil_r.
  repeat split; try reflexivity.
  - intros t Ht. rewrite first_occurrences_In in Ht.
    eapply hkstock_token_shape, Ht.
  - intros t Ht. rewrite first_occurrences_In in Ht.
    apply usstock_token_shape in Ht. lia.
Qed.

Lemma hk_token_upper (U : ucd) (s : text) (i : nat) :
  hk_token_at U s i ->
  exists k d, upper (slice s i (i + 7)) = 72%N :: k :: upper d /\
    (k = 75%N \/ k = 8490%N) /\ List.length d = 5 /\ all_decimal U d.
Proof.
  intros (_ & (c0 & Hc0 & Hh) & (c1 & Hc1 & Hk) & Hd & _).
  rewrite (@slice_cons s i (i + 7) c0 Hc0) by lia.
  replace (i + 1) with (S i) in Hc1 by lia.
  rewrite (@slice_cons s (S i) (i + 7) c1 Hc1) by lia.
  replace (S (S i)) with (i + 2) by lia.
  exists (upper_char c1), (slice s (i + 2) (i + 7)).
  split; [|split; [|split]].
  - simpl. f_equal. apply letter_H in Hh. destruct Hh as [->| ->]; reflexivity.
  - apply letter_K in Hk. destruct Hk as [->|[->| ->]]; auto.
  - rewrite (span_in_slice_length Hd); lia.
  - apply slice_Forall, Hd.
Qed.

(** X2: every code of the output is of one of three kinds: six characters, a
    leading 0, 1, 2, 3 or 6 and five decimal digits; or, with scope hk or
    mixed only, the letters H and K (or KELVIN SIGN) and five decimal digits;
    or, with scope us or mixed only, one to five capital letters of ASCII. *)
Theorem token_classification (U : ucd) (s : text) (mk : market) (t : text) :
  In t (_extract_stock_codes U s mk) ->
  (List.length t = 6 /\ leading_allowed t = true /\ all_decimal U (tl t)) \/
  (in_hk_scope mk = true /\
   exists k d, t = 72%N :: k :: upper d /\ (k = 75%N \/ k = 8490%N) /\
               List.length d = 5 /\ all_decimal U d) \/
  (in_us_scope mk = true /\ 1 <= List.length t <= 5 /\ all_upper t).
Proof.
  intros H. apply extract_In in H. destruct H as [Ha|[Hh|Hu]].
  - left. eapply astock_token_shape, Ha.
  - right. left. unfold hkstock_tokens in Hh.
    destruct (in_hk_scope mk); [|contradiction]. split; [reflexivity|].
    apply in_map_iff in Hh. destruct Hh as (m & <- & Hm).
    apply finditer_hk in Hm. destruct Hm as (Ht & He & _).
    unfold group0. rewrite He. apply hk_token_upper, Ht.
  - right. right. pose proof (usstock_token_shape _ _ _ _ Hu) as Hs.
    unfold usstock_tokens in Hu.
    destruct (in_us_scope mk); [|contradiction]. split; [reflexivity|exact Hs].
Qed.

Lemma token_classification_witness :
  let t := py "HK00700" in
  (List.length t = 6 /\ leading_allowed t = true /\ all_decimal ascii_ucd (tl t)) \/
  (in_hk_scope mixed = true /\
   exists k d, t = 72%N :: k :: upper d /\ (k = 75%N \/ k = 8490%N) /\
               List.length d = 5 /\ all_decimal ascii_ucd d) \/
  (in_us_scope mixed = true /\ 1 <= List.length t <= 5 /\ all_upper t).
Proof.
  intros t.
  apply (@token_classification ascii_ucd (py "600519.SH, hk00700 and AAPL at $3")
           mixed t).
  vm_compute. auto.
Defined.

Lemma nil_of_no_member (A : Type) (l : list A) : (forall x, ~ In x l) -> l = [].
Proof.
  destruct l as [|x l]; [reflexivity|]. intros H. destruct (H x). left. reflexivity.
Qed.

(** X3: a text that holds none of the digits 0, 1, 2, 3, 6, no letter h and
    no capital letter of ASCII yields no code, whatever the scope; the empty
    text is the first case of it. *)
Theorem no_token_without_a_beginning (U : ucd) (s : text) (mk : market) :
  Forall (fun c => may_begin_token c = false) s ->
  _extract_stock_codes U s mk = [] /\ _extract_stock_codes U [] mk = [].
Proof.
  intros H. rewrite Forall_forall in H.
  assert (Hat : forall i c, nth_error s i = Some c -> may_begin_token c = false).
  { intros i c Hc. apply H. eapply nth_error_In, Hc. }
  split; [|destruct mk; reflexivity].
  assert (Ha : finditer U s _ASTOCK_FULL = []).
  { apply nil_of_no_member. intros m Hm.
    apply finditer_sound in Hm. destruct Hm as [_ Hm].
    apply matches_astock in Hm. destruct Hm as (a & c & _ & Hc & Hok & _).
    apply Hat in Hc. apply allowed_digit in Hok.
    destruct Hok as [->|[->|[->|[->| ->]]]]; discriminate. }
  assert (Hh : finditer U s _HKSTOCK_FULL = []).
  { apply nil_of_no_member. intros m Hm.
    apply finditer_hk in Hm. destruct Hm as ((_ & (c & Hc & Hcl) & _) & _).
    apply Hat in Hc. apply letter_H in Hcl.
    destruct Hcl as [->| ->]; discriminate. }
  assert (Hu : finditer U s _USSTOCK_FULL = []).
  { apply nil_of_no_member. intros m Hm.
    apply finditer_us in Hm. destruct Hm as ((_ & Hj & Hl & _) & _).
    destruct (Hl (m_start m)) as (c & Hc & Hup); [lia|].
    apply Hat in Hc. unfold may_begin_token in Hc. rewrite Hup in Hc.
    rewrite orb_true_r in Hc. discriminate. }
  unfold _extract_stock_codes. rewrite Ha, Hh, Hu.
  destruct (in_hk_scope mk), (in_us_scope mk); reflexivity.
Qed.

Lemma no_token_without_a_beginning_witness :
  _extract_stock_codes ascii_ucd (py "market is icy: no picks today, 45% down") mixed = [] /\
  _extract_stock_codes ascii_ucd [] mixed = [].
Proof.
  apply (@no_token_without_a_beginning ascii_ucd
           (py "market is icy: no picks today, 45% down") mixed).
  apply Forall_forall. intros c Hc.
  vm_compute in Hc. repeat (destruct Hc as [<-|Hc]; [reflexivity|]). destruct Hc.
Defined.

(** X4: the test on the first digit at line 68 never rejects a match: the
    pattern has already restricted the first digit, so the loop inserts the
    group of every match of [_ASTOCK_FULL], and that group is six characters
    long, the marker and the suffix stripped. *)
Theorem leading_digit_test_never_rejects (U : ucd) (s : text) (seen : dict) :
  fold_left (astock_step s) (finditer U s _ASTOCK_FULL) seen =
  fold_left (fun seen m => setdefault seen (group_code s m))
            (finditer U s _ASTOCK_FULL) seen /\
  Forall (fun m => first_ok (group_code s m) = true /\
                   List.length (group_code s m) = 6)
         (finditer U s _ASTOCK_FULL).
Proof.
  assert (HF : Forall (fun m => first_ok (group_code s m) = true /\
                               List.length (group_code s m) = 6)
                      (finditer U s _ASTOCK_FULL)).
  { apply Forall_forall. intros m Hm.
    destruct (astock_code_shape _ _ _ Hm) as (c & rest & -> & Hl & Hok & _).
    split; [apply allowed_first_ok, Hok|simpl; lia]. }
  split; [|exact HF].
  revert seen. induction HF as [|m ms [Hm _] _ IH]; intros seen; simpl; [reflexivity|].
  unfold astock_step at 2. rewrite Hm. apply IH.
Qed.

Lemma ascii_ucd_coherent : coherent ascii_ucd.
Proof.
  split; [exact ascii_ucd_faithful|].
  intros c H. simpl in *. rewrite H. reflexivity.
Qed.

(** X5: a six-digit code that begins with 0, 1, 2, 3 or 6 and stands
    between two word boundaries is in the output, in every scope: codes that
    begin with 1 or 2 are kept like those that begin with 0, 3 or 6. *)
Theorem bare_code_extracted (U : ucd) (s : text) (mk : market) (a : nat) :
  coherent U ->
  bare_code_at U s a ->
  In (slice s a (a + 6)) (_extract_stock_codes U s mk).
Proof.
  intros HC Hb. destruct (bare_code_found HC Hb) as (m & Hm & Hg).
  apply extract_In. left. rewrite astock_tokens_all.
  apply in_map_iff. exists m. split; [|exact Hm].
  unfold group_code. rewrite Hg. reflexivity.
Qed.

Lemma bare_code_sample : bare_code_at ascii_ucd (py "B-share 200012 and 900901") 8.
Proof.
  assert (Hm : In {| m_start := 8; m_end := 14; m_code := Some (8, 14) |}
                  (finditer ascii_ucd (py "B-share 200012 and 900901") _ASTOCK_FULL)).
  { vm_compute. left. reflexivity. }
  apply finditer_sound in Hm. destruct Hm as [_ Hm].
  apply matches_astock_iff in Hm. destruct Hm as (a & (Hb & _ & Hc & _ & He) & Hg).
  simpl in Hg. injection Hg as Ha _. subst a.
  unfold bare_code_at. split; [exact Hb|split; [exact Hc|exact He]].
Defined.

Lemma bare_code_extracted_witness :
  In (slice (py "B-share 200012 and 900901") 8 (8 + 6))
     (_extract_stock_codes ascii_ucd (py "B-share 200012 and 900901") cn).
Proof.
  apply (@bare_code_extracted ascii_ucd (py "B-share 200012 and 900901") cn 8).
  - exact ascii_ucd_coherent.
  - exact bare_code_sample.
Defined.

(** X6: a code of six digits in the output is never cut out of a longer run
    of digits: it is a slice of the text with no ASCII digit right after it
    and none right before it. *)
Theorem code_not_cut_from_digit_run (U : ucd) (s : text) (mk : market) (t : text) :
  coherent U ->
  In t (_extract_stock_codes U s mk) ->
  List.length t = 6 ->
  exists a, t = slice s a (a + 6) /\
    (forall c, nth_error s (a + 6) = Some c -> ascii_digit c = false) /\
    (forall p c, a = S p -> nth_error s p = Some c -> ascii_digit c = false).
Proof.
  intros HC Hin Hlen. apply extract_In in Hin.
  destruct Hin as [Ha|[Hh|Hu]].
  - rewrite astock_tokens_all in Ha. apply in_map_iff in Ha.
    destruct Ha as (m & <- & Hm).
    apply finditer_sound in Hm. destruct Hm as [_ Hm].
    apply matches_astock_iff in Hm. destruct Hm as (a & Hat & Hg).
    exists a. split; [unfold group_code; rewrite Hg; reflexivity|].
    eapply astock_not_in_digit_run; eauto.
  - apply hkstock_token_shape in Hh. lia.
  - apply usstock_token_shape in Hu. lia.
Qed.

Lemma code_not_cut_from_digit_run_witness :
  exists a, py "600519" = slice (py "tel 13600519001, buy 600519.SH") a (a + 6) /\
    (forall c, nth_error (py "tel 13600519001, buy 600519.SH") (a + 6) = Some c ->
               ascii_digit c = false) /\
    (forall p c, a = S p -> nth_error (py "tel 13600519001, buy 600519.SH") p = Some c ->
                 ascii_digit c = false).
Proof.
  apply (@code_not_cut_from_digit_run ascii_ucd
           (py "tel 13600519001, buy 600519.SH") cn (py "600519")).
  - exact ascii_ucd_coherent.
  - vm_compute. left. reflexivity.
  - reflexivity.
Defined.

Section Bounds.

Variable U : ucd.
Variable s : text.

(** No pattern reads beyond the end of the text. *)
Lemma rep_matches_bound (spec : nat -> grp -> nat -> grp -> Prop) :
  (forall i g j g', spec i g j g' -> i <= List.length s -> j <= List.length s) ->
  forall n i g j g', rep_matches spec n i g j g' ->
    i <= List.length s -> j <= List.length s.
Proof.
  intros Hs n. induction n as [|n IH]; simpl; intros i g j g' H Hi.
  - destruct H as [-> _]. exact Hi.
  - destruct H as (j1 & g1 & H1 & H2). eapply IH; eauto.
Qed.

Lemma matches_bound (r : regex) :
  forall i g j g', matches U s r i g j g' ->
    i <= List.length s -> j <= List.length s.
Proof.
  induction r as [cl| |r1 IH1 r2 IH2|r1 IH1 r2 IH2|r1 IH1|lo hi r1 IH1|r1 IH1];
    intros i g j g' H Hi; simpl in H.
  - destruct H as (c & Hc & _ & -> & _).
    apply nth_error_Some. congruence.
  - destruct H as (_ & -> & _). exact Hi.
  - destruct H as (j1 & g1 & H1 & H2). eauto.
  - destruct H as [H|H]; eauto.
  - destruct H as [H|[-> _]]; eauto.
  - destruct H as (n & _ & H). eapply rep_matches_bound; eauto.
  - destruct H as (g0 & H & _). eauto.
Qed.

Lemma finditer_within (r : regex) (m : rmatch) :
  In m (finditer U s r) -> m_start m <= m_end m <= List.length s.
Proof.
  intros H. apply finditer_sound in H. destruct H as [Hs H]. split.
  - eapply matches_le, H.
  - eapply matches_bound; eauto.
Qed.

(** Matches that follow one another, each at least [w] characters long, fit
    in the text. *)
Lemma sorted_matches_fit (w n : nat) (l : list rmatch) :
  StronglySorted before l ->
  forall lo,
    (forall m, In m l -> lo <= m_start m /\ m_start m + w <= m_end m /\ m_end m <= n) ->
    w * List.length l <= n - lo.
Proof.
  intros Hs. induction Hs as [|m l Hs IH Hm]; intros lo H; simpl; [lia|].
  destruct (H m) as (H1 & H2 & H3); [left; reflexivity|].
  assert (Hl : w * List.length l <= n - m_end m).
  { apply IH. intros m' Hm'. rewrite Forall_forall in Hm.
    specialize (Hm m' Hm'). unfold before in Hm.
    destruct (H m') as (_ & H2' & H3'); [right; exact Hm'|]. lia. }
  lia.
Qed.

Lemma first_occurrences_length (l : list text) :
  List.length (first_occurrences l) <= List.length l.
Proof.
  induction l as [|x l IH]; simpl; [lia|].
  pose proof (filter_length_le (fun y => negb (text_eqb x y)) (first_occurrences l)).
  lia.
Qed.

End Bounds.

(** X7: with scope cn the output holds at most one code for every six
    characters of the text. *)
Theorem cn_output_bound (U : ucd) (s : text) :
  6 * List.length (_extract_stock_codes U s cn) <= List.length s.
Proof.
  rewrite extract_by_category. simpl. rewrite !app_nil_r, astock_tokens_all.
  pose proof (first_occurrences_length (map (group_code s) (finditer U s _ASTOCK_FULL))) as H1.
  rewrite length_map in H1.
  assert (H2 : 6 * List.length (finditer U s _ASTOCK_FULL) <= List.length s - 0).
  { apply sorted_matches_fit; [apply finditer_sorted|].
    intros m Hm. pose proof (finditer_within _ _ _ _ Hm) as [_ Hw].
    apply finditer_sound in Hm. destruct Hm as [_ Hm].
    apply matches_astock_span in Hm. lia. }
  lia.
Qed.

Lemma leading_allowed_digit (c : char) (rest : text) :
  leading_allowed (c :: rest) = true -> ascii_digit c = true.
Proof.
  unfold leading_allowed, N_eqb_in.
  change (py "01236") with [48; 49; 50; 51; 54]%N.
  rewrite existsb_exists. intros (x & Hin & He).
  apply N.eqb_eq in He. subst x. simpl in Hin.
  destruct Hin as [<-|[<-|[<-|[<-|[<-|[]]]]]]; reflexivity.
Qed.

Section CodeAlphabet.

Variable U : ucd.
Hypothesis HU : ascii_faithful U.

Lemma decimal_not_other (c : char) : isdecimal U c = true -> ~ ascii_other c.
Proof.
  intros H (Hlt & Hd & _). destruct (@HU c Hlt) as [Hdec _].
  rewrite Hdec in H. simpl in H. congruence.
Qed.

Lemma upper_char_other (c c' : char) :
  upper_char c' = c -> ascii_other c -> c' = c /\ ascii_lower c = false.
Proof.
  unfold upper_char. intros H (Hlt & _ & Hup).
  destruct (ascii_lower c') eqn:Hl.
  - exfalso. unfold ascii_lower in Hl. unfold ascii_upper in Hup.
    apply andb_true_iff in Hl. destruct Hl as [H1 H2].
    apply N.leb_le in H1. apply N.leb_le in H2.
    apply andb_false_iff in Hup.
    destruct Hup as [Hup|Hup]; apply N.leb_gt in Hup; lia.
  - subst c'. auto.
Qed.

Lemma astock_token_alphabet (s t : text) (c : char) :
  In t (astock_tokens U s) -> In c t -> ~ ascii_other c.
Proof.
  intros H Hc Ho. apply astock_token_shape in H. destruct H as (_ & Hl & Hd).
  destruct t as [|c0 rest]; [destruct Hc|]. simpl in Hd.
  destruct Hc as [->|Hc].
  - destruct Ho as (_ & Hdig & _).
    rewrite (@leading_allowed_digit c rest Hl) in Hdig. discriminate.
  - unfold all_decimal in Hd. rewrite Forall_forall in Hd.
    apply (decimal_not_other (Hd _ Hc) Ho).
Qed.

Lemma hkstock_token_alphabet (s : text) (mk : market) (t : text) (c : char) :
  In t (hkstock_tokens U s mk) -> In c t -> ~ ascii_other c.
Proof.
  unfold hkstock_tokens. destruct (in_hk_scope mk); [|contradiction].
  intros H Hc Ho. apply in_map_iff in H. destruct H as (m & <- & Hm).
  apply finditer_hk in Hm. destruct Hm as (Ht & He & _).
  unfold group0 in Hc. rewrite He in Hc.
  destruct (hk_token_upper Ht) as (k & d & Heq & Hk & _ & Hd).
  rewrite Heq in Hc. destruct Hc as [<-|[<-|Hc]].
  - destruct Ho as (_ & _ & Hup). discriminate.
  - destruct Hk as [->| ->]; destruct Ho as (Hlt & _ & Hup);
      [discriminate|vm_compute in Hlt; discriminate].
  - unfold upper in Hc. apply in_map_iff in Hc. destruct Hc as (c' & Hu & Hc').
    destruct (upper_char_other _ Hu Ho) as [-> _].
    unfold all_decimal in Hd. rewrite Forall_forall in Hd.
    apply (decimal_not_other (Hd _ Hc') Ho).
Qed.

Lemma usstock_token_alphabet (s : text) (mk : market) (t : text) (c : char) :
  In t (usstock_tokens U s mk) -> In c t -> ~ ascii_other c.
Proof.
  intros H Hc (_ & _ & Hup). apply usstock_token_shape in H. destruct H as [_ H].
  unfold all_upper in H. rewrite Forall_forall in H.
  rewrite (H _ Hc) in Hup. discriminate.
Qed.

Lemma extract_alphabet (s : text) (mk : market) (t : text) (c : char) :
  In t (_extract_stock_codes U s mk) -> In c t -> ~ ascii_other c.
Proof.
  intros H. apply extract_In in H. destruct H as [H|[H|H]].
  - eapply astock_token_alphabet, H.
  - eapply hkstock_token_alphabet, H.
  - eapply usstock_token_alphabet, H.
Qed.

Lemma extract_nonempty_token (s : text) (mk : market) (t : text) :
  In t (_extract_stock_codes U s mk) -> t <> [].
Proof.
  intros H ->. apply extract_In in H. destruct H as [H|[H|H]].
  - apply astock_token_shape in H. simpl in H. lia.
  - apply hkstock_token_shape in H. simpl in H. lia.
  - apply usstock_token_shape in H. simpl in H. lia.
Qed.

Lemma extract_csv_safe (s : text) (mk : market) (t : text) :
  In t (_extract_stock_codes U s mk) -> csv_safe t.
Proof.
  intros H. split; [eapply extract_nonempty_token, H|].
  intros Hc. eapply extract_alphabet; [exact H|exact Hc|].
  repeat split; reflexivity.
Qed.

End CodeAlphabet.

(** X8: a code of the output is not empty and holds no ASCII character but
    digits and capital letters: no blank, no comma, no newline, no small
    letter. *)
Theorem codes_are_digits_and_capitals (U : ucd) (s : text) (mk : market) (t : text) :
  ascii_faithful U ->
  In t (_extract_stock_codes U s mk) ->
  t <> [] /\
  forall c, In c t -> (c < 128)%N -> ascii_digit c = true \/ ascii_upper c = true.
Proof.
  intros HU H. split; [eapply extract_nonempty_token, H|].
  intros c Hc Hlt.
  destruct (ascii_digit c) eqn:Hd; [auto|].
  destruct (ascii_upper c) eqn:Hup; [auto|].
  exfalso. eapply extract_alphabet; [exact HU|exact H|exact Hc|].
  repeat split; assumption.
Qed.

Lemma codes_are_digits_and_capitals_witness :
  py "HK09988" <> [] /\
  forall c, In c (py "HK09988") -> (c < 128)%N ->
            ascii_digit c = true \/ ascii_upper c = true.
Proof.
  apply (@codes_are_digits_and_capitals ascii_ucd
           (py "see hk09988 (Alibaba), sz000001.") mixed (py "HK09988")).
  - exact ascii_ucd_faithful.
  - vm_compute. auto.
Defined.

Lemma app_comma_inj (x : text) :
  forall y r r', ~ In comma x -> ~ In comma y ->
    x ++ comma :: r = y ++ comma :: r' -> x = y /\ r = r'.
Proof.
  induction x as [|a x IH]; intros [|b y] r r' Hx Hy H; simpl in H.
  - injection H as ->. auto.
  - injection H as <- _. destruct Hy. left. reflexivity.
  - injection H as -> _. destruct Hx. left. reflexivity.
  - injection H as -> H.
    destruct (IH y r r') as [-> ->]; auto.
    + intros Hc. apply Hx. right. exact Hc.
    + intros Hc. apply Hy. right. exact Hc.
Qed.

Lemma join_nil_inv (l : list text) :
  Forall csv_safe l -> join (py ",") l = [] -> l = [].
Proof.
  destruct l as [|x [|y l]]; intros Hs H; [reflexivity| |].
  - apply Forall_inv in Hs. destruct Hs as [Hs _]. simpl in H. congruence.
  - apply Forall_inv in Hs. destruct Hs as [Hs _].
    rewrite join_cons in H. apply app_eq_nil in H. destruct H as [H _]. congruence.
Qed.

Lemma join_comma (x y : text) (l : list text) :
  join (py ",") (x :: y :: l) = x ++ comma :: join (py ",") (y :: l).
Proof. reflexivity. Qed.

(** The comma-separated line determines the list of codes. *)
Lemma join_injective (l1 : list text) :
  forall l2, Forall csv_safe l1 -> Forall csv_safe l2 ->
    join (py ",") l1 = join (py ",") l2 -> l1 = l2.
Proof.
  induction l1 as [|x l1 IH]; intros l2 H1 H2 H.
  - symmetry. apply join_nil_inv; auto.
  - destruct l2 as [|y l2]; [apply join_nil_inv in H; auto|].
    pose proof (Forall_inv H1) as [_ Hx]. pose proof (Forall_inv H2) as [_ Hy].
    apply Forall_inv_tail in H1. apply Forall_inv_tail in H2.
    destruct l1 as [|x' l1], l2 as [|y' l2].
    + simpl in H. congruence.
    + rewrite join_comma in H. simpl in H. subst x.
      destruct Hx. apply in_or_app. right. left. reflexivity.
    + rewrite join_comma in H. simpl in H. subst y.
      destruct Hy. apply in_or_app. right. left. reflexivity.
    + rewrite !join_comma in H.
      destruct (app_comma_inj _ _ _ _ Hx Hy H) as [-> Hr].
      f_equal. apply IH; auto.
Qed.

Lemma slice_to_csv_safe (U : ucd) (s : text) (mk : market) (n : Z) :
  ascii_faithful U ->
  Forall csv_safe (slice_to (_extract_stock_codes U s mk) n).
Proof.
  intros HU. apply Forall_forall. intros t Ht.
  apply slice_to_In in Ht. eapply extract_csv_safe; eauto.
Qed.

(** X9: the printed line determines the codes: two lists of kept codes that
    are joined into the same comma-separated line are the same list. *)
Theorem printed_line_determines_codes (U : ucd) (s1 s2 : text) (mk1 mk2 : market)
    (n1 n2 : Z) :
  ascii_faithful U ->
  join (py ",") (slice_to (_extract_stock_codes U s1 mk1) n1) =
  join (py ",") (slice_to (_extract_stock_codes U s2 mk2) n2) ->
  slice_to (_extract_stock_codes U s1 mk1) n1 =
  slice_to (_extract_stock_codes U s2 mk2) n2.
Proof.
  intros HU H. apply join_injective; auto using slice_to_csv_safe.
Qed.

Lemma printed_line_determines_codes_witness :
  slice_to (_extract_stock_codes ascii_ucd (py "600519, 000001") cn) 1 =
  slice_to (_extract_stock_codes ascii_ucd (py "buy SH600519") hk) 5.
Proof.
  apply (@printed_line_determines_codes ascii_ucd
           (py "600519, 000001") (py "buy SH600519") cn hk 1 5).
  - exact ascii_ucd_faithful.
  - reflexivity.
Defined.

(** * Further properties of the program *)

Ltac run_main Hb :=
  unfold run_program, main, bind, logger, called, print, write_text, ret;
  simpl; rewrite Hb; simpl.

Ltac no_record H :=
  simpl in H; repeat (destruct H as [H|H]; [discriminate H|]); try contradiction.

Section ProgramPaths.

Variable U : ucd.
Variable build : list text -> build_outcome.
Variable a : args.



Lemma logged_on_build_failure (exc : text) :
  build [args_strategy a] = Raises exc ->
  logged_at ERROR (snd (run_program U build a)) /\
  ~ logged_at WARNING (snd (run_program U build a)).
Proof.
  intros Hb. unfold logged_at. run_main Hb. split.
  - eexists. right. left. reflexivity.
  - intros [msg H]. no_record H.
Qed.

Lemma logged_on_executor_failure (ex : executor) :
  build [args_strategy a] = Returns ex ->
  success (result_of a ex) = false ->
  logged_at ERROR (snd (run_program U build a)) /\
  ~ logged_at WARNING (snd (run_program U build a)).
Proof.
  intros Hb Hs. unfold logged_at, result_of in *. run_main Hb. rewrite Hs. simpl. split.
  - eexists. right. right. left. reflexivity.
  - intros [msg H]. no_record H.
Qed.

Lemma logged_on_success (ex : executor) :
  build [args_strategy a] = Returns ex ->
  success (result_of a ex) = true ->
  ~ logged_at ERROR (snd (run_program U build a)) /\
  (logged_at WARNING (snd (run_program U build a)) <-> kept_codes U a ex = []).
Proof.
  intros Hb Hs. unfold logged_at, kept_codes, result_of in *.
  run_main Hb. rewrite Hs. simpl.
  destruct (given (args_report a)); simpl;
    destruct (slice_to _ _) as [|c cs]; simpl;
    try (destruct (given (args_output a)); simpl);
    (split; [intros [msg H]; no_record H|]);
    (split; [intros [msg H]; try reflexivity; no_record H|]);
    intros H; try discriminate H; eexists; simpl; eauto 10.
Qed.

End ProgramPaths.






Lemma join_nil_nonempty (sep : text) (l : list text) :
  Forall (fun t => t <> []) l -> join sep l = [] -> l = [].
Proof.
  destruct l as [|x [|y l]]; intros Hs H; [reflexivity| |].
  - apply Forall_inv in Hs. simpl in H. congruence.
  - apply Forall_inv in Hs.
    rewrite join_cons in H. apply app_eq_nil in H. destruct H as [H _]. congruence.
Qed.

Lemma kept_codes_nonempty (U : ucd) (a : args) (ex : executor) :
  Forall (fun t => t <> []) (kept_codes U a ex).
Proof.
  apply Forall_forall. intros t Ht. unfold kept_codes in Ht.
  apply slice_to_In in Ht. eapply extract_nonempty_token, Ht.
Qed.

(** X13: the log tells the outcome.  A record of level ERROR is logged
    exactly when the program returns 1, and a record of level WARNING exactly
    when it returns 0 after printing the empty line. *)
Theorem log_levels_tell_the_outcome (U : ucd) (build : list text -> build_outcome)
    (a : args) :
  let r := run_program U build a in
  (logged_at ERROR (snd r) <-> fst r = 1%Z) /\
  (logged_at WARNING (snd r) <-> fst r = 0%Z /\ stdout (snd r) = [newline]).
Proof.
  intros r. subst r.
  destruct (build [args_strategy a]) as [exc|ex] eqn:Hb.
  - destruct (@run_build_failure U build a exc Hb) as (H1 & Ho & _).
    destruct (@logged_on_build_failure U build a exc Hb) as (He & Hw).
    rewrite H1. split; split; auto; try tauto. intros [H _]. discriminate.
  - destruct (success (result_of a ex)) eqn:Hs.
    + destruct (@run_success U build a ex Hb Hs) as (H0 & Ho & _).
      destruct (@logged_on_success U build a ex Hb Hs) as (He & Hw).
      rewrite H0, Ho, Hw. split; split; try tauto; try discriminate.
      * intros ->. auto.
      * intros [_ H]. apply (app_inv_tail [newline] _ []) in H.
        eapply join_nil_nonempty; [apply kept_codes_nonempty|exact H].
    + destruct (@run_executor_failure U build a ex Hb Hs) as (H1 & Ho & _).
      destruct (@logged_on_executor_failure U build a ex Hb Hs) as (He & Hw).
      rewrite H1. split; split; auto; try tauto. intros [H _]. discriminate.
Qed.

(** X14: whatever integer [--max-stocks] is, the kept codes are a beginning
    of the extracted list: the truncation never reorders, repeats or invents
    a code.  Their number is [min(max, len)] for a maximum that is not
    negative and [max(0, len + max)] for a negative one. *)
Theorem kept_codes_are_a_prefix (U : ucd) (a : args) (ex : executor) :
  let codes := _extract_stock_codes U (content (result_of a ex)) (args_market a) in
  (exists dropped, codes = kept_codes U a ex ++ dropped) /\
  NoDup (kept_codes U a ex) /\
  Z.of_nat (List.length (kept_codes U a ex)) =
    (if args_max_stocks a <? 0
     then Z.max 0 (Z.of_nat (List.length codes) + args_max_stocks a)
     else Z.min (args_max_stocks a) (Z.of_nat (List.length codes)))%Z.
Proof.
  intros codes.
  assert (Hk : exists n, kept_codes U a ex = firstn n codes /\
            Z.of_nat (Nat.min n (List.length codes)) =
            (if args_max_stocks a <? 0
             then Z.max 0 (Z.of_nat (List.length codes) + args_max_stocks a)
             else Z.min (args_max_stocks a) (Z.of_nat (List.length codes)))%Z).
  { unfold kept_codes, slice_to. fold codes.
    destruct (args_max_stocks a <? 0)%Z eqn:Hn; eexists; (split; [reflexivity|]).
    - apply Z.ltb_lt in Hn. lia.
    - apply Z.ltb_ge in Hn. lia. }
  destruct Hk as (n & Hk & Hlen). rewrite Hk. split; [|split].
  - exists (skipn n codes). symmetry. apply firstn_skipn.
  - apply (NoDup_app_remove_r _ (skipn n codes)).
    rewrite firstn_skipn. apply extract_NoDup.
  - rewrite length_firstn. exact Hlen.
Qed.

Section SuffixTicker.

Variable U : ucd.
Variable s : text.
Hypothesis HU : ascii_faithful U.

Lemma window_has_marker (i j p : nat) (c : char) :
  nth_error s p = Some c -> is_marker U c = true ->
  i - 20 <= p < j + 20 ->
  marker_near U s i j = true.
Proof.
  intros Hc Hm Hp. unfold marker_near, window.
  apply existsb_exists. exists c. split; [|exact Hm].
  apply nth_error_In with (n := p - (i - 20)).
  rewrite slice_nth.
  assert (Hlen : p < List.length s) by (apply nth_error_Some; congruence).
  replace (p - (i - 20) <? Nat.min (List.length s) (j + 20) - (i - 20)) with true
    by (symmetry; apply Nat.ltb_lt; lia).
  replace (i - 20 + (p - (i - 20))) with p by lia. exact Hc.
Qed.

Lemma dot_then_capital_boundary (k : nat) (c : char) :
  nth_error s k = Some 46%N -> nth_error s (S k) = Some c ->
  ascii_upper c = true -> boundary U s (S k) = true.
Proof.
  intros Hd Hc Hup. unfold boundary, word_at. rewrite Hd, Hc.
  rewrite (upper_is_word HU _ Hup).
  unfold is_word. destruct (@HU 46%N) as [_ Ha]; [reflexivity|].
  rewrite Ha. reflexivity.
Qed.

End SuffixTicker.

(** X15: with scope us or mixed, the capital exchange suffix of a domestic
    code is itself reported as a ticker: when [.SH] or [.SZ] follows the six
    digits and ends at a word boundary, the output holds [SH] or [SZ], the
    digits of the code being within its window. *)
Theorem exchange_suffix_reported_as_ticker (U : ucd) (s : text) (mk : market)
    (a : nat) (x : char) :
  ascii_faithful U ->
  in_us_scope mk = true ->
  code_at U s a ->
  nth_error s (a + 6) = Some 46%N ->
  nth_error s (a + 7) = Some 83%N ->
  nth_error s (a + 8) = Some x ->
  x = 72%N \/ x = 90%N ->
  boundary U s (a + 9) = true ->
  In [83%N; x] (_extract_stock_codes U s mk).
Proof.
  intros HU Hmk Hc Hdot HS Hx Hhz He.
  assert (Hup : ascii_upper x = true) by (destruct Hhz as [->| ->]; reflexivity).
  assert (Ht : ticker_at U s (a + 7) (a + 9)).
  { split; [|split; [lia|split; [|exact He]]].
    - replace (a + 7) with (S (a + 6)) in * by lia.
      eapply dot_then_capital_boundary; eauto.
    - intros k Hk. assert (k = a + 7 \/ k = a + 8) as [->| ->] by lia; eauto. }
  destruct (ticker_found HU Ht) as (m & Hm & Hs & Hend).
  assert (Hsl : slice s (a + 7) (a + 9) = [83%N; x]).
  { rewrite (@slice_cons s (a + 7) (a + 9) _ HS) by lia.
    replace (S (a + 7)) with (a + 8) by lia.
    rewrite (@slice_cons s (a + 8) (a + 9) _ Hx) by lia.
    unfold slice. replace (a + 9 - S (a + 8)) with 0 by lia. reflexivity. }
  destruct Hc as [_ Hd]. destruct (Hd (a + 5)) as (c & Hc5 & Hdec); [lia|].
  apply extract_In. right. right. unfold usstock_tokens. rewrite Hmk.
  apply in_map_iff. exists m. split.
  - unfold group0. rewrite Hs, Hend. exact Hsl.
  - apply filter_In. split; [exact Hm|].
    rewrite search_price_or_pct. unfold context_of. rewrite Hs, Hend.
    apply (@window_has_marker U s (a + 7) (a + 9) (a + 5) c Hc5); [|lia].
    unfold is_marker. rewrite Hdec. repeat rewrite orb_true_r. reflexivity.
Qed.

Lemma suffix_sample : code_at ascii_ucd (py "top pick: 600519.SH") 10.
Proof.
  assert (Hm : In {| m_start := 10; m_end := 19; m_code := Some (10, 16) |}
                  (finditer ascii_ucd (py "top pick: 600519.SH") _ASTOCK_FULL)).
  { vm_compute. left. reflexivity. }
  apply finditer_sound in Hm. destruct Hm as [_ Hm].
  apply matches_astock_iff in Hm. destruct Hm as (a & (_ & _ & Hc & _) & Hg).
  simpl in Hg. injection Hg as Ha _. subst a. exact Hc.
Defined.

Lemma exchange_suffix_reported_as_ticker_witness :
  In (py "SH") (_extract_stock_codes ascii_ucd (py "top pick: 600519.SH") mixed).
Proof.
  apply (@exchange_suffix_reported_as_ticker ascii_ucd (py "top pick: 600519.SH")
           mixed 10 72%N).
  - exact ascii_ucd_faithful.
  - reflexivity.
  - exact suffix_sample.
  - reflexivity.
  - reflexivity.
  - reflexivity.
  - left. reflexivity.
  - reflexivity.
Defined.



(** * The process and its exit status *)

Section ProcessFacts.

Variable U : ucd.
Variable H : host.
Variable a : args.

(** How [main] ends on a host, and the calls it has made by then. *)
Lemma main_live_cases :
  let r := main_live U H a world0 in
  let task := _build_selection_prompt (args_max_stocks a) in
  match get_config H with
  | Raised exc => fst r = Raised exc /\ calls (snd r) = []
  | Done _ =>
      match build_executor H [args_strategy a] with
      | Raised _ =>
          fst r = Done 1%Z /\ calls (snd r) = [CallBuild [args_strategy a]]
      | Done ex =>
          calls (snd r) = [CallBuild [args_strategy a]; CallRun task] /\
          match live_run ex task with
          | Raised exc => fst r = Raised exc
          | Done result =>
              if success result
              then fst r = Done 0%Z \/ fst r = Raised (py "OSError")
              else fst r = Done 1%Z
          end
      end
  end.
Proof.
  unfold main_live, try_write, bind, logger, called, print, write_text, ret. simpl.
  destruct (get_config H) as [[]|exc]; simpl; [|auto].
  destruct (build_executor H [args_strategy a]) as [ex|exc]; simpl; [|auto].
  destruct (live_run ex _) as [result|exc]; simpl; [|auto].
  destruct (success result); simpl; [|auto].
  destruct (given (args_report a)); simpl;
    try (destruct (can_write H (path_of (args_report a))); simpl; [|auto]);
    destruct (slice_to _ _) as [|c cs]; simpl; auto;
    destruct (given (args_output a)); simpl; auto;
    destruct (can_write H (path_of (args_output a))); simpl; auto.
Qed.

End ProcessFacts.

(** On a host where every call returns and every path can be written, the
    process is [main]. *)
Lemma main_live_calm (U : ucd) (build : list text -> build_outcome) (a : args) :
  main_live U (calm_host a build) a world0 =
  (Done (fst (run_program U build a)), snd (run_program U build a)).
Proof.
  unfold run_program, main, main_live, try_write, calm_host,
    bind, logger, called, print, write_text, ret. simpl.
  destruct (build [args_strategy a]) as [exc|ex]; simpl; [reflexivity|].
  destruct (success (executor_run ex _)); simpl; [|reflexivity].
  destruct (given (args_report a)); simpl;
    destruct (slice_to _ _) as [|c cs]; simpl; try reflexivity;
    destruct (given (args_output a)); reflexivity.
Qed.

(** When an exception leaves [main] the interpreter exits with status 1, and
    when argparse exits the status is its own. *)
Lemma exit_status_otherwise (U : ucd) (H : host) :
  (forall a exc, parse_args H = Parsed a ->
     fst (main_live U H a world0) = Raised exc -> fst (process U H) = 1%Z) /\
  (forall status printed, parse_args H = SystemExit status printed ->
     fst (process U H) = status /\ calls (snd (process U H)) = []).
Proof.
  unfold process. split.
  - intros a exc -> Hr. destruct (main_live U H a world0) as [r w].
    simpl in *. subst r. reflexivity.
  - intros status printed ->. auto.
Qed.

(** C7, amended: when argparse accepts the command line and [main] returns,
    the exit status is 1 exactly when the construction of the executor raised
    or the result of the run reports a failure, and 0 otherwise; the factory
    was called once and the executor at most once. *)
Theorem exit_status_when_main_returns (U : ucd) (H : host) (a : args) :
  parse_args H = Parsed a ->
  main_returns U H a ->
  (fst (process U H) = 1%Z <-> construction_raised H a \/ failure_reported H a) /\
  (fst (process U H) = 0%Z <-> ~ (construction_raised H a \/ failure_reported H a)) /\
  List.length (filter is_build (calls (snd (process U H)))) = 1 /\
  List.length (filter is_run (calls (snd (process U H)))) <= 1.
Proof.
  intros Hp [n Hn]. unfold process. rewrite Hp.
  pose proof (main_live_cases U H a) as Hc. simpl in Hc.
  destruct (main_live U H a world0) as [r w]. simpl in *. subst r.
  unfold construction_raised, failure_reported.
  destruct (get_config H) as [[]|exc]; [|destruct Hc; discriminate].
  destruct (build_executor H [args_strategy a]) as [ex|exc] eqn:Hb.
  - destruct Hc as [Hcalls Hc]. rewrite Hcalls.
    destruct (live_run ex _) as [result|exc] eqn:Hr; [|discriminate].
    destruct (success result) eqn:Hs.
    + assert (n = 0%Z) as -> by (destruct Hc; congruence).
      simpl. repeat split; try lia; try discriminate.
      * intros [[exc He]|(ex' & r' & He & Hr' & Hf)]; [discriminate|].
        injection He as <-. congruence.
      * intros _ [[exc He]|(ex' & r' & He & Hr' & Hf)]; [discriminate|].
        injection He as <-. congruence.
    + assert (n = 1%Z) as -> by congruence.
      simpl. repeat split; try lia; eauto 6.
      intros Hx. exfalso. apply Hx. eauto 6.
  - destruct Hc as [Hc Hcalls]. rewrite Hcalls.
    assert (n = 1%Z) as -> by congruence.
    simpl. repeat split; try lia; eauto.
    intros Hx. exfalso. apply Hx. eauto.
Qed.

Lemma exit_status_when_main_returns_witness :
  let H := calm_host (args_with 10 cn) (fun _ => Returns (failing (py "quota"))) in
  let a := args_with 10 cn in
  (fst (process ascii_ucd H) = 1%Z <-> construction_raised H a \/ failure_reported H a) /\
  (fst (process ascii_ucd H) = 0%Z <-> ~ (construction_raised H a \/ failure_reported H a)) /\
  List.length (filter is_build (calls (snd (process ascii_ucd H)))) = 1 /\
  List.length (filter is_run (calls (snd (process ascii_ucd H)))) <= 1.
Proof.
  intros H a.
  apply (@exit_status_when_main_returns ascii_ucd H a).
  - reflexivity.
  - exists 1%Z. reflexivity.
Defined.

(** C7 as it stands fails: when [executor.run] raises, the process exits with
    status 1 though the construction did not raise and no result reports a
    failure; and when argparse rejects the command line it exits with status
    2, which is neither 0 nor 1. *)
Lemma exit_status_other_cases :
  parse_args host_run_raises = Parsed (args_with 10 cn) /\
  (fst (process ascii_ucd host_run_raises) = 1%Z /\
   ~ (construction_raised host_run_raises (args_with 10 cn) \/
      failure_reported host_run_raises (args_with 10 cn))) /\
  fst (process ascii_ucd host_usage_error) = 2%Z.
Proof.
  split; [reflexivity|]. split; [split|]; try reflexivity.
  intros [[exc He]|(ex & r & He & Hr & _)].
  - discriminate He.
  - simpl in He. injection He as <-. discriminate Hr.
Qed.

Lemma agree_on_check (U V : ucd) (s : text) :
  forallb (fun c => Bool.eqb (isdecimal U c) (isdecimal V c) &&
                    Bool.eqb (isalnum U c) (isalnum V c)) s = true ->
  agree_on U V s.
Proof.
  intros H. apply Forall_forall. intros c Hc.
  rewrite forallb_forall in H. specialize (H c Hc).
  apply andb_true_iff in H. destruct H as [H1 H2].
  split; apply Bool.eqb_prop; assumption.
Qed.

(** X17: the extractor reads the interpreter's character tables at the
    characters of the text only: under two tables that classify these
    characters alike, the output is the same, whatever the tables say of
    other characters.  It does read them there: [60051] followed by FULLWIDTH
    DIGIT NINE is a code under a table that has the fullwidth digits, and not
    under the ASCII table. *)
Theorem tables_read_at_text_only (U V : ucd) (s : text) (mk : market) :
  agree_on U V s ->
  _extract_stock_codes U s mk = _extract_stock_codes V s mk /\
  _extract_stock_codes wide_ucd (py "60051" ++ [65305%N]) cn =
    [py "60051" ++ [65305%N]] /\
  _extract_stock_codes ascii_ucd (py "60051" ++ [65305%N]) cn = [].
Proof.
  intros H. split; [apply extract_agree, H|]. split; reflexivity.
Qed.

Lemma tables_read_at_text_only_witness :
  _extract_stock_codes ascii_ucd (py "SH600519 HK00700 AAPL $3") mixed =
  _extract_stock_codes wide_ucd (py "SH600519 HK00700 AAPL $3") mixed /\
  _extract_stock_codes wide_ucd (py "60051" ++ [65305%N]) cn =
    [py "60051" ++ [65305%N]] /\
  _extract_stock_codes ascii_ucd (py "60051" ++ [65305%N]) cn = [].
Proof.
  apply (@tables_read_at_text_only ascii_ucd wide_ucd
           (py "SH600519 HK00700 AAPL $3") mixed).
  apply agree_on_check. reflexivity.
Defined.
